(** * eICU length-of-stay prediction: the Transformer baseline

    A shallow embedding of [src/models/transformer_model.py]: the sinusoidal
    [PositionalEncoding], the causally masked [TransformerEncoder] and the
    [Transformer] model with its fusion head, clamped output and loss
    dispatch.

    Tensors are embedded as a shape together with an index function.  Float
    entries are idealised as real numbers; the only non-finite float the
    source writes, [float('-inf')] in the causal mask, is kept as a separate
    constructor.  Every tensor operation that can raise in Python returns a
    [result]. *)

From Stdlib Require Import String.
From Stdlib Require Import QArith Qreals.
From Stdlib Require Import Reals Lra Lia ZArith Bool Arith List.
From Stdlib Require Import Zify ZifyNat.
Import ListNotations.
Close Scope Q_scope.

Set Implicit Arguments.

(** ** Exceptions and the error monad *)

Inductive error : Set :=
| RuntimeError       (* raised by the tensor library: shapes, sizes, arguments *)
| ValueError         (* a shape unpacked at the wrong rank, a layer's argument *)
| IndexError         (* a dimension that does not exist *)
| AssertionError     (* an [assert] in a library constructor *)
| ZeroDivisionError  (* Python division by zero *)
| UnboundLocalError. (* a local variable read before any assignment *)

Inductive result (A : Type) : Type :=
| Ok (a : A)
| Err (e : error).

Arguments Err {A} e.

Definition bind {A B : Type} (r : result A) (k : A -> result B) : result B :=
  match r with
  | Ok a => k a
  | Err e => Err e
  end.

Definition is_ok {A : Type} (r : result A) : bool :=
  match r with Ok _ => true | Err _ => false end.

Definition raises {A : Type} (r : result A) : Prop :=
  exists e, r = Err e.

Declare Scope result_scope.
Delimit Scope result_scope with result.
Notation "x <- c ;; k" := (bind c (fun x => k))
  (at level 61, c at next level, right associativity) : result_scope.
Notation "'check' b 'else' e ;; k" := (if b then k else Err e)
  (at level 61, b at next level, e at next level, right associativity)
  : result_scope.
Open Scope result_scope.

(** ** Float values that may be minus infinity *)

Inductive xreal : Type :=
| Fin (r : R)
| NegInf.

Definition xadd (a b : xreal) : xreal :=
  match a, b with
  | Fin x, Fin y => Fin (x + y)
  | _, _ => NegInf
  end.

(** [exp(-inf)] is [0.0]. *)
Definition xexp (a : xreal) : R :=
  match a with
  | Fin x => exp x
  | NegInf => 0
  end.

(** ** Tensors *)

Record tensor (A : Type) : Type := Tensor {
  shape : list nat;
  elem : list nat -> A
}.

Definition in_range (s idx : list nat) : Prop := Forall2 lt idx s.

(** The shape of a result, when there is one. *)
Definition shape_of {A : Type} (r : result (tensor A)) : result (list nat) :=
  match r with
  | Ok t => Ok (shape t)
  | Err e => Err e
  end.

Definition numel_of (s : list nat) : nat := fold_right Nat.mul 1%nat s.

Definition Rsum (n : nat) (f : nat -> R) : R :=
  fold_right Rplus 0%R (map f (seq 0 n)).

(** The tensor library, as far as the model uses it. *)
Module Torch.

Section Elementwise.
Context {A B : Type}.

Definition full (s : list nat) (v : A) : tensor A :=
  Tensor s (fun _ => v).

Definition map_t (f : A -> B) (t : tensor A) : tensor B :=
  Tensor (shape t) (fun idx => f (elem t idx)).
End Elementwise.

Definition zeros (s : list nat) : tensor R := full s 0%R.
Definition ones (s : list nat) : tensor R := full s 1%R.

(** *** Broadcasting *)

Fixpoint broadcast_rev (s1 s2 : list nat) : result (list nat) :=
  match s1, s2 with
  | [], s => Ok s
  | s, [] => Ok s
  | a :: s1', b :: s2' =>
      r <- broadcast_rev s1' s2' ;;
      if a =? b then Ok (a :: r)
      else if a =? 1 then Ok (b :: r)
      else if b =? 1 then Ok (a :: r)
      else Err RuntimeError
  end.

Definition broadcast_shapes (s1 s2 : list nat) : result (list nat) :=
  r <- broadcast_rev (rev s1) (rev s2) ;; Ok (rev r).

(** One-directional broadcasting ([expand]): a size-1 dimension of the source
    stretches to any target size, 0 included. *)
Fixpoint expandable_rev (src dst : list nat) : bool :=
  match src, dst with
  | [], _ => true
  | _ :: _, [] => false
  | a :: src', b :: dst' => ((a =? b) || (a =? 1)) && expandable_rev src' dst'
  end.

Definition expandable (src dst : list nat) : bool :=
  expandable_rev (rev src) (rev dst).

(** The index into an operand of shape [s] read for the entry [idx] of the
    broadcast result: the trailing components, 0 along stretched dimensions. *)
Definition bcast_index (s idx : list nat) : list nat :=
  map (fun di => if fst di =? 1 then 0 else snd di)
      (combine s (skipn (length idx - length s) idx)).

Definition broadcast_op {A B C : Type} (f : A -> B -> C)
    (x : tensor A) (y : tensor B) : result (tensor C) :=
  s <- broadcast_shapes (shape x) (shape y) ;;
  Ok (Tensor s (fun idx =>
        f (elem x (bcast_index (shape x) idx))
          (elem y (bcast_index (shape y) idx)))).

Definition add := broadcast_op Rplus.
Definition mul := broadcast_op Rmult.

(** *** Shape manipulation *)

Definition swap (d0 d1 : nat) (l : list nat) : list nat :=
  map (fun k => nth (if k =? d0 then d1 else if k =? d1 then d0 else k) l 0)
      (seq 0 (length l)).

Definition transpose {A} (d0 d1 : nat) (t : tensor A) : result (tensor A) :=
  check (d0 <? length (shape t)) && (d1 <? length (shape t)) else IndexError ;;
  Ok (Tensor (swap d0 d1 (shape t)) (fun idx => elem t (swap d0 d1 idx))).

(** *** The operations of the causal mask *)

(** [torch.triu]: zero below the main diagonal of the last two dimensions. *)
Definition triu (t : tensor R) : result (tensor R) :=
  check (2 <=? length (shape t)) else RuntimeError ;;
  Ok (Tensor (shape t) (fun idx =>
        match rev idx with
        | j :: i :: _ => if j <? i then 0%R else elem t idx
        | _ => elem t idx
        end)).

Definition Reqb (x y : R) : bool :=
  if Req_dec_T x y then true else false.

(** [t == c] on a float tensor. *)
Definition eq_scalar (t : tensor R) (c : R) : tensor bool :=
  map_t (fun x => Reqb x c) t.

(** [m == k] on a bool tensor and a Python int: [False] is 0, [True] is 1. *)
Definition bool_eq_int (m : tensor bool) (k : Z) : tensor bool :=
  map_t (fun b : bool => Z.eqb (if b then 1 else 0) k) m.

(** [m.float()]. *)
Definition float_of_bool (m : tensor bool) : tensor xreal :=
  map_t (fun b : bool => Fin (if b then 1 else 0)) m.

Definition masked_fill {A} (t : tensor A) (cond : tensor bool) (v : A)
  : result (tensor A) :=
  check expandable (shape cond) (shape t) else RuntimeError ;;
  Ok (Tensor (shape t) (fun idx =>
        if elem cond (bcast_index (shape cond) idx) then v else elem t idx)).

(** [torch.arange(start, stop, step)] as a float tensor. *)
Definition arange (start stop step : nat) : result (tensor R) :=
  check (0 <? step) else RuntimeError ;;
  Ok (Tensor [(stop - start + step - 1) / step]
        (fun idx => INR (start + nth 0 idx 0 * step))).

Definition set_nth (k v : nat) (l : list nat) : list nat :=
  firstn k l ++ v :: skipn (S k) l.

Definition unsqueeze {A} (dim : nat) (t : tensor A) : result (tensor A) :=
  check (dim <=? length (shape t)) else IndexError ;;
  Ok (Tensor (firstn dim (shape t) ++ 1 :: skipn dim (shape t))
        (fun idx => elem t (firstn dim idx ++ skipn (S dim) idx))).

Definition is_perm (dims : list nat) (n : nat) : bool :=
  (length dims =? n) &&
  forallb (fun k => existsb (Nat.eqb k) dims) (seq 0 n).

Fixpoint index_of (k : nat) (dims : list nat) : nat :=
  match dims with
  | [] => 0
  | d :: dims' => if d =? k then 0 else S (index_of k dims')
  end.

(** [t.permute(dims)]: dimension [i] of the result is dimension [dims[i]] of
    [t]. *)
Definition permute {A} (dims : list nat) (t : tensor A) : result (tensor A) :=
  check is_perm dims (length (shape t)) else RuntimeError ;;
  Ok (Tensor (map (fun d => nth d (shape t) 0) dims)
        (fun idx => elem t (map (fun k => nth (index_of k dims) idx 0)
                                (seq 0 (length dims))))).

(** [t[..., start:stop, ...]] along dimension [dim], with Python's clipping
    of both bounds to the size; [stop = None] is an open end. *)
Definition slice {A} (dim start : nat) (stop : option nat) (t : tensor A)
  : result (tensor A) :=
  check (dim <? length (shape t)) else IndexError ;;
  let n := nth dim (shape t) 0 in
  let hi := match stop with Some k => Nat.min k n | None => n end in
  let lo := Nat.min start n in
  Ok (Tensor (set_nth dim (hi - lo) (shape t))
        (fun idx => elem t (set_nth dim (nth dim idx 0 + lo) idx))).

(** [t[:, start::step] = v] on a matrix [t]: the value is expanded to the
    shape of the selected columns. *)
Definition setitem_cols {A} (t : tensor A) (start step : nat) (v : tensor A)
  : result (tensor A) :=
  match shape t with
  | [rows; cols] =>
      check (0 <? step) else ValueError ;;
      let slot := [rows; (cols - start + step - 1) / step] in
      check expandable (shape v) slot else RuntimeError ;;
      Ok (Tensor [rows; cols] (fun idx =>
            let r := nth 0 idx 0 in
            let c := nth 1 idx 0 in
            if (start <=? c) && ((c - start) mod step =? 0)
            then elem v (bcast_index (shape v) [r; (c - start) / step])
            else elem t idx))
  | _ => Err IndexError
  end.

(** [t.repeat_interleave(repeats, dim=0)] with a Python int [repeats]: a
    negative count is refused, unless there is no row to repeat. *)
Definition repeat_interleave {A} (repeats : Z) (t : tensor A)
  : result (tensor A) :=
  match shape t with
  | [] => Err IndexError
  | n :: s =>
      check (n =? 0) || (0 <=? repeats)%Z else RuntimeError ;;
      let r := Z.to_nat repeats in
      Ok (Tensor (n * r :: s) (fun idx =>
            match idx with
            | i :: rest => elem t (i / r :: rest)
            | [] => elem t []
            end))
  end.

Definition same_except (dim : nat) (s1 s2 : list nat) : bool :=
  (length s1 =? length s2) &&
  forallb (fun k => (k =? dim) || (nth k s1 0 =? nth k s2 0))
          (seq 0 (length s1)).

Fixpoint cat_elem {A} (dim : nat) (t0 : tensor A) (ts : list (tensor A))
    (idx : list nat) : A :=
  match ts with
  | [] => elem t0 idx
  | t1 :: ts' =>
      let n := nth dim (shape t0) 0 in
      let i := nth dim idx 0 in
      if i <? n then elem t0 idx
      else cat_elem dim t1 ts' (set_nth dim (i - n) idx)
  end.

(** [torch.cat((t0, ts...), dim)]. *)
Definition cat {A} (t0 : tensor A) (ts : list (tensor A)) (dim : nat)
  : result (tensor A) :=
  check (dim <? length (shape t0)) else IndexError ;;
  check forallb (fun t => same_except dim (shape t0) (shape t)) ts
    else RuntimeError ;;
  let total := fold_right (fun t acc => nth dim (shape t) 0 + acc) 0
                          (t0 :: ts) in
  Ok (Tensor (set_nth dim total (shape t0)) (cat_elem dim t0 ts)).

(** Row-major position of an index, and back. *)
Definition flatten_index (s idx : list nat) : nat :=
  fold_left (fun acc di => acc * fst di + snd di) (combine s idx) 0.

Fixpoint unflatten_rev (srev : list nat) (n : nat) : list nat :=
  match srev with
  | [] => []
  | d :: r => n mod d :: unflatten_rev r (n / d)
  end.

Definition unflatten_index (s : list nat) (n : nat) : list nat :=
  rev (unflatten_rev (rev s) n).

(** The size inference of [view]: at most one [-1], which is then computed
    from the number of elements; it is refused when the other sizes multiply
    to 0, because any value would do. *)
Definition infer_size (sizes : list Z) (numel : nat) : result (list nat) :=
  check forallb (fun d => (-1 <=? d)%Z) sizes else RuntimeError ;;
  check (length (filter (Z.eqb (-1)) sizes) <=? 1) else RuntimeError ;;
  let infer := existsb (Z.eqb (-1)) sizes in
  let newsize :=
    numel_of (map Z.to_nat (filter (fun d => negb (d =? -1)%Z) sizes)) in
  if (numel =? newsize) ||
     (infer && (0 <? newsize) && (numel mod newsize =? 0))
  then
    if infer then
      check negb (newsize =? 0) else RuntimeError ;;
      Ok (map (fun d => if (d =? -1)%Z then numel / newsize else Z.to_nat d)
              sizes)
    else Ok (map Z.to_nat sizes)
  else Err RuntimeError.

(** [t.contiguous().view(sizes)]. *)
Definition view {A} (sizes : list Z) (t : tensor A) : result (tensor A) :=
  s <- infer_size sizes (numel_of (shape t)) ;;
  Ok (Tensor s (fun idx =>
        elem t (unflatten_index (shape t) (flatten_index s idx)))).

Definition scale (c : R) (t : tensor R) : tensor R :=
  map_t (fun x => x * c)%R t.

Definition relu (t : tensor R) : tensor R :=
  map_t (fun x => Rmax 0 x) t.

(** *** Attention probabilities

    The library's scaled dot-product attention adds the float mask to the
    score matrix and takes a softmax along the key dimension.  [scores] is
    the L x S matrix of one head; the mask must have the same shape. *)
Definition attention_probs (scores : tensor R) (mask : tensor xreal)
  : result (tensor R) :=
  match shape scores, shape mask with
  | [l; s], [l'; s'] =>
      check (l =? l') && (s =? s') else RuntimeError ;;
      let masked i j := xadd (Fin (elem scores [i; j])) (elem mask [i; j]) in
      Ok (Tensor [l; s] (fun idx =>
            let i := nth 0 idx 0 in
            let j := nth 1 idx 0 in
            Rdiv (xexp (masked i j)) (Rsum s (fun k => xexp (masked i k)))))
  | _, _ => Err RuntimeError
  end.

End Torch.

(** ** Library layers

    Learned parameters are fields of the layer; layers whose arithmetic the
    model never inspects carry their input-output function as a field. *)

(** [nn.Conv1d] with [kernel_size=1]: a linear map over channels at every
    timestep. *)
Module Conv1d.
Record t : Type := Make {
  in_channels : nat;
  out_channels : nat;
  weight : nat -> nat -> R;
  bias : nat -> R
}.

Definition forward (m : t) (x : tensor R) : result (tensor R) :=
  match shape x with
  | [b; c; l] =>
      check (c =? in_channels m) else RuntimeError ;;
      Ok (Tensor [b; out_channels m; l] (fun idx =>
            let n := nth 0 idx 0 in
            let o := nth 1 idx 0 in
            let p := nth 2 idx 0 in
            (bias m o + Rsum c (fun k => weight m o k * elem x [n; k; p]))%R))
  | _ => Err RuntimeError
  end.
End Conv1d.

(** [nn.Linear]: acts on the last dimension. *)
Module Linear.
Record t : Type := Make {
  in_features : nat;
  out_features : nat;
  weight : nat -> nat -> R;
  bias : nat -> R
}.

Definition forward (m : t) (x : tensor R) : result (tensor R) :=
  match rev (shape x) with
  | k :: r =>
      check (k =? in_features m) else RuntimeError ;;
      Ok (Tensor (rev (out_features m :: r)) (fun idx =>
            let o := last idx 0 in
            (bias m o +
             Rsum k (fun j =>
                       weight m o j * elem x (removelast idx ++ [j])))%R))
  | [] => Err RuntimeError
  end.
End Linear.

(** [nn.Dropout]: the rate must be a probability; the layer is the identity
    in evaluation mode, and in training mode the Bernoulli draw of the call
    is an explicit argument. *)
Module Dropout.
Record t : Type := Make { p : Q }.

Definition __init__ (p : Q) : result t :=
  check Qle_bool 0 p && Qle_bool p 1 else ValueError ;;
  Ok (Make p).

Definition forward (m : t) (training : bool) (keep : list nat -> bool)
    (x : tensor R) : tensor R :=
  if training
  then Tensor (shape x)
         (fun idx =>
            if keep idx then (elem x idx / (1 - Q2R (p m)))%R else 0%R)
  else x.
End Dropout.

(** [nn.Hardtanh]. *)
Module Hardtanh.
Record t : Type := Make { min_val : R; max_val : R }.

Definition apply (m : t) (x : R) : R :=
  if Rlt_dec x (min_val m) then min_val m
  else if Rlt_dec (max_val m) x then max_val m
  else x.

Definition forward (m : t) (x : tensor R) : tensor R :=
  Torch.map_t (apply m) x.
End Hardtanh.

(** The three normalisation stages the model chooses from.  [MyBatchNorm1d]
    and [EmptyModule] come from [models.tpc_model].  What a batch norm
    computes on a batch, or that it refuses the batch (the library's does
    when it is to take statistics over a single row), is the function [fn]
    supplied at the call; the identity stage never looks at it. *)
Module Norm.
Inductive t : Type :=
| MyBatchNorm1d (num_features : nat) (momentum : R)
| BatchNorm1d (num_features : nat)
| EmptyModule.

(** Whether the stage takes inputs with [c] channels. *)
Definition accepts (m : t) (c : nat) : bool :=
  match m with
  | EmptyModule => true
  | MyBatchNorm1d n _ | BatchNorm1d n => c =? n
  end.

Definition forward (m : t) (fn : tensor R -> result (list nat -> R))
    (x : tensor R) : result (tensor R) :=
  match m with
  | EmptyModule => Ok x
  | MyBatchNorm1d n _ | BatchNorm1d n =>
      match shape x with
      | [_; c] | [_; c; _] =>
          check (c =? n) else RuntimeError ;;
          values <- fn x ;;
          Ok (Tensor (shape x) values)
      | _ => Err ValueError
      end
  end.
End Norm.

(** [nn.TransformerEncoderLayer]: its multi-head attention requires the
    embedding width to be a multiple of the number of heads, and its dropout
    layers a rate that is a probability. *)
Module TransformerEncoderLayer.
Record t : Type := Make {
  d_model : nat;
  nhead : nat;
  dim_feedforward : nat;
  dropout : Dropout.t
}.

Definition __init__ (d_model nhead dim_feedforward : nat) (dropout : Q)
  : result t :=
  check (0 <? nhead) else ZeroDivisionError ;;
  check (d_model mod nhead =? 0) else AssertionError ;;
  dropout <- Dropout.__init__ dropout ;;
  Ok (Make d_model nhead dim_feedforward dropout).
End TransformerEncoderLayer.

(** [nn.TransformerEncoder]: [num_layers] copies of the layer, every one of
    them called with the same mask.  [run] is the function the stack
    computes on a sequence-first input. *)
Module NNTransformerEncoder.
Record t : Type := Make {
  encoder_layer : TransformerEncoderLayer.t;
  num_layers : nat;
  run : tensor R -> tensor xreal -> list nat -> R
}.

Definition forward (m : t) (src : tensor R) (mask : tensor xreal)
  : result (tensor R) :=
  if num_layers m =? 0 then Ok src
  else
    match shape src, shape mask with
    | [l; b; e], [l1; l2] =>
        check (e =? TransformerEncoderLayer.d_model (encoder_layer m))
          else AssertionError ;;
        check (l1 =? l) && (l2 =? l) else RuntimeError ;;
        Ok (Tensor [l; b; e] (run m src mask))
    | _, _ => Err RuntimeError
    end.
End NNTransformerEncoder.

(** ** [PositionalEncoding] *)

Module PositionalEncoding.
Record t : Type := Make { pe : tensor R }.

Definition default_max_len : nat := 14 * 24.

Definition __init__ (d_model max_len : nat) : result t :=
  let pe := Torch.zeros [max_len; d_model] in
  position <- (a <- Torch.arange 0 max_len 1 ;; Torch.unsqueeze 1 a) ;;
  steps <- Torch.arange 0 d_model 2 ;;
  check (0 <? d_model) else ZeroDivisionError ;;
  let div_term :=
    Torch.map_t exp (Torch.scale (- ln 10000 / INR d_model)%R steps) in
  angles <- Torch.mul position div_term ;;
  pe <- Torch.setitem_cols pe 0 2 (Torch.map_t sin angles) ;;
  angles <- Torch.mul position div_term ;;
  pe <- Torch.setitem_cols pe 1 2 (Torch.map_t cos angles) ;;
  pe <- (u <- Torch.unsqueeze 0 pe ;; Torch.permute [0; 2; 1] u) ;;
  Ok (Make pe).

(** The number of positions the table holds: the size of its last
    dimension. *)
Definition max_len (self : t) : nat := nth 2 (shape (pe self)) 0.

Definition forward (self : t) (X : tensor R) : result (tensor R) :=
  check (2 <? length (shape X)) else IndexError ;;
  columns <- (s0 <- Torch.slice 0 0 None (pe self) ;;
              s1 <- Torch.slice 1 0 None s0 ;;
              Torch.slice 2 0 (Some (nth 2 (shape X) 0)) s1) ;;
  Torch.add X columns.
End PositionalEncoding.

(** ** [TransformerEncoder] *)

Module TransformerEncoder.
Record t : Type := Make {
  d_model : nat;
  input_embedding : Conv1d.t;
  pos_encoder : PositionalEncoding.t;
  trans_encoder_layer : TransformerEncoderLayer.t;
  transformer_encoder : NNTransformerEncoder.t
}.

(** The randomly initialised parameters of the library layers. *)
Record params : Type := Params {
  embedding_weight : nat -> nat -> R;
  embedding_bias : nat -> R;
  encoder_run : tensor R -> tensor xreal -> list nat -> R
}.

Definition __init__ (init : params)
    (input_size d_model num_layers num_heads feedforward_size : nat)
    (dropout : Q) : result t :=
  let input_embedding :=
    Conv1d.Make input_size d_model
      (embedding_weight init) (embedding_bias init) in
  pos_encoder <-
    PositionalEncoding.__init__ d_model PositionalEncoding.default_max_len ;;
  layer <-
    TransformerEncoderLayer.__init__ d_model num_heads feedforward_size
      dropout ;;
  Ok (Make d_model input_embedding pos_encoder layer
        (NNTransformerEncoder.Make layer num_layers (encoder_run init))).

Definition _causal_mask (size : nat) : result (tensor xreal) :=
  upper <- Torch.triu (Torch.ones [size; size]) ;;
  mask <- Torch.transpose 0 1 (Torch.eq_scalar upper 1) ;;
  filled <- Torch.masked_fill (Torch.float_of_bool mask)
              (Torch.bool_eq_int mask 0) NegInf ;;
  Torch.masked_fill filled (Torch.bool_eq_int mask 1) (Fin 0).

Definition forward (self : t) (X : tensor R) (T : nat)
  : result (tensor R) :=
  X <- Conv1d.forward (input_embedding self) X ;;
  let X := Torch.scale (sqrt (INR (d_model self))) X in
  X <- PositionalEncoding.forward (pos_encoder self) X ;;
  src <- Torch.permute [2; 0; 1] X ;;
  mask <- _causal_mask T ;;
  X <- NNTransformerEncoder.forward (transformer_encoder self) src mask ;;
  Torch.permute [1; 2; 0] X.
End TransformerEncoder.

(** ** The masked sequence losses *)

(** Modelled from the spec: the classes [MSELoss] and [MSLELoss] of
    [models.tpc_model], which [Transformer.loss] calls, are not part of the
    sources at hand.  The per-element error is the squared difference
    ([MSE]) or the squared difference of natural logarithms ([MSLE]); an
    element contributes only where the mask is true; with [sum_losses] the
    masked errors of the whole batch are summed and divided by the number of
    valid elements, without it every sequence's masked errors are averaged
    over its valid length and these means are averaged over the batch. *)
Module MaskedLoss.
Inductive kind : Set := MSE | MSLE.

Definition per_element (k : kind) (y_hat y : R) : R :=
  match k with
  | MSE => (y_hat - y) ^ 2
  | MSLE => (ln y_hat - ln y) ^ 2
  end.

Definition same_shape (s1 s2 : list nat) : bool :=
  if list_eq_dec Nat.eq_dec s1 s2 then true else false.

Definition forward (k : kind) (y_hat y : tensor R) (mask : tensor bool)
    (seq_lengths : tensor R) (sum_losses : bool) : result R :=
  match shape y_hat with
  | [b; n] =>
      check same_shape (shape y) [b; n] && same_shape (shape mask) [b; n]
            && same_shape (shape seq_lengths) [b]
        else RuntimeError ;;
      let err i j :=
        if elem mask [i; j]
        then per_element k (elem y_hat [i; j]) (elem y [i; j])
        else 0%R in
      let valid i j := if elem mask [i; j] then 1%R else 0%R in
      if sum_losses
      then Ok (Rsum b (fun i => Rsum n (err i))
               / Rsum b (fun i => Rsum n (valid i)))%R
      else Ok (Rsum b (fun i => Rsum n (err i) / elem seq_lengths [i])
               / INR b)%R
  | _ => Err RuntimeError
  end.
End MaskedLoss.

(** ** [Transformer] *)

Inductive device : Set := cpu | cuda.

Definition device_eqb (a b : device) : bool :=
  match a, b with
  | cpu, cpu | cuda, cuda => true
  | _, _ => false
  end.

Inductive bool_tensor_type : Set := BoolTensor | CudaBoolTensor.

(** [mask.type(bool_type)]: non-zero entries are true; where the tensor
    lives does not change its entries. *)
Definition to_bool (ty : bool_tensor_type) (x : tensor R) : tensor bool :=
  Torch.map_t (fun v => negb (Torch.Reqb v 0)) x.

(** [s in l] for a list of string literals. *)
Definition str_in (s : string) (l : list string) : bool :=
  existsb (String.eqb s) l.

Module Config.
Record t : Type := Make {
  d_model : nat;
  n_layers : nat;
  n_heads : nat;
  feedforward_size : nat;
  trans_dropout_rate : Q;
  main_dropout_rate : Q;
  diagnosis_size : nat;
  batchnorm : string;
  last_linear_size : nat;
  no_exp : bool
}.
End Config.

Module Transformer.
Record t : Type := Make {
  d_model : nat;
  n_layers : nat;
  n_heads : nat;
  feedforward_size : nat;
  trans_dropout_rate : Q;
  main_dropout_rate : Q;
  diagnosis_size : nat;
  batchnorm : string;
  last_linear_size : nat;
  F : nat;
  D : nat;
  no_flat_features : nat;
  no_exp : bool;
  momentum : R;
  hardtanh : Hardtanh.t;
  trans_dropout : Dropout.t;
  main_dropout : Dropout.t;
  msle_loss : MaskedLoss.kind;
  mse_loss : MaskedLoss.kind;
  transformer : TransformerEncoder.t;
  diagnosis_encoder : Linear.t;
  bn_diagnosis_encoder : Norm.t;
  point : Linear.t;
  bn_point_last : Norm.t;
  point_final : Linear.t;
  (* the functions of the two batch-norm stages *)
  bn_diagnosis_fn : tensor R -> result (list nat -> R);
  bn_point_fn : tensor R -> result (list nat -> R)
}.

(** The randomly initialised parameters of the library layers. *)
Record params : Type := Params {
  encoder_params : TransformerEncoder.params;
  diagnosis_weight : nat -> nat -> R;
  diagnosis_bias : nat -> R;
  point_weight : nat -> nat -> R;
  point_bias : nat -> R;
  final_weight : nat -> nat -> R;
  final_bias : nat -> R;
  norm_diagnosis : tensor R -> result (list nat -> R);
  norm_point : tensor R -> result (list nat -> R)
}.

(** The mode of the module and the dropout draws of one forward call. *)
Record mode : Type := Mode {
  training : bool;
  keep_trans : list nat -> bool;
  keep_diagnoses : list nat -> bool;
  keep_point : list nat -> bool
}.

Definition __init__ (init : params) (config : Config.t)
    (F D no_flat_features : nat) : result t :=
  let d_model := Config.d_model config in
  let n_layers := Config.n_layers config in
  let n_heads := Config.n_heads config in
  let feedforward_size := Config.feedforward_size config in
  let trans_dropout_rate := Config.trans_dropout_rate config in
  let main_dropout_rate := Config.main_dropout_rate config in
  let diagnosis_size := Config.diagnosis_size config in
  let batchnorm := Config.batchnorm config in
  let last_linear_size := Config.last_linear_size config in
  let no_exp := Config.no_exp config in
  let momentum :=
    if String.eqb batchnorm "low_momentum" then 0.01%R else 0.1%R in
  let hardtanh := Hardtanh.Make (1 / 48) 100 in
  trans_dropout <- Dropout.__init__ trans_dropout_rate ;;
  main_dropout <- Dropout.__init__ main_dropout_rate ;;
  transformer <-
    TransformerEncoder.__init__ (encoder_params init) (2 * F + 2) d_model
      n_layers n_heads feedforward_size trans_dropout_rate ;;
  let diagnosis_encoder :=
    Linear.Make D diagnosis_size
      (diagnosis_weight init) (diagnosis_bias init) in
  let bn_diagnosis_encoder :=
    if str_in batchnorm ["mybatchnorm"; "low_momentum"]%string
    then Norm.MyBatchNorm1d diagnosis_size momentum
    else if String.eqb batchnorm "default"
    then Norm.BatchNorm1d diagnosis_size
    else Norm.EmptyModule in
  let point :=
    Linear.Make (d_model + diagnosis_size + no_flat_features)
      last_linear_size (point_weight init) (point_bias init) in
  let bn_point_last :=
    if str_in batchnorm ["mybatchnorm"; "pointonly"; "low_momentum"]%string
    then Norm.MyBatchNorm1d last_linear_size momentum
    else if String.eqb batchnorm "default"
    then Norm.BatchNorm1d last_linear_size
    else Norm.EmptyModule in
  let point_final :=
    Linear.Make last_linear_size 1 (final_weight init) (final_bias init) in
  Ok (Make d_model n_layers n_heads feedforward_size trans_dropout_rate
        main_dropout_rate diagnosis_size batchnorm last_linear_size
        F D no_flat_features no_exp momentum hardtanh
        trans_dropout main_dropout
        MaskedLoss.MSLE MaskedLoss.MSE
        transformer diagnosis_encoder bn_diagnosis_encoder point
        bn_point_last point_final
        (norm_diagnosis init) (norm_point init)).

Definition forward (self : t) (md : mode)
    (X diagnoses flat : tensor R) : result (tensor R) :=
  match shape X with
  | [B; _; T] =>
      let B' := Z.of_nat B in
      let T' := Z.of_nat T in
      trans_output <- TransformerEncoder.forward (transformer self) X T ;;
      let X_final :=
        Torch.relu (Dropout.forward (trans_dropout self) (training md)
                      (keep_trans md) trans_output) in
      encoded <- Linear.forward (diagnosis_encoder self) diagnoses ;;
      normed <- Norm.forward (bn_diagnosis_encoder self)
                  (bn_diagnosis_fn self) encoded ;;
      let diagnoses_enc :=
        Torch.relu (Dropout.forward (main_dropout self) (training md)
                      (keep_diagnoses md) normed) in
      flat_rep <- Torch.repeat_interleave (T' - 5) flat ;;
      diag_rep <- Torch.repeat_interleave (T' - 5) diagnoses_enc ;;
      trimmed <- (s0 <- Torch.slice 0 0 None X_final ;;
                  s1 <- Torch.slice 1 0 None s0 ;;
                  s2 <- Torch.slice 2 5 None s1 ;;
                  p <- Torch.permute [0; 2; 1] s2 ;;
                  Torch.view [B' * (T' - 5); -1]%Z p) ;;
      combined_features <- Torch.cat flat_rep [diag_rep; trimmed] 1 ;;
      projected <- Linear.forward (point self) combined_features ;;
      normed <- Norm.forward (bn_point_last self) (bn_point_fn self)
                  projected ;;
      let last_point :=
        Torch.relu (Dropout.forward (main_dropout self) (training md)
                      (keep_point md) normed) in
      if no_exp self then
        scores <- Linear.forward (point_final self) last_point ;;
        raw <- Torch.view [B'; T' - 5]%Z scores ;;
        Ok (Hardtanh.forward (hardtanh self) raw)
      else
        scores <- Linear.forward (point_final self) last_point ;;
        raw <- Torch.view [B'; T' - 5]%Z scores ;;
        Ok (Hardtanh.forward (hardtanh self) (Torch.map_t exp raw))
  | _ => Err ValueError
  end.

(** The scores before the output transform: the forward call up to
    [self.point_final(last_point).view(B, T - 5)], the expression both
    branches on [no_exp] start from. *)
Definition raw_scores (self : t) (md : mode)
    (X diagnoses flat : tensor R) : result (tensor R) :=
  match shape X with
  | [B; _; T] =>
      let B' := Z.of_nat B in
      let T' := Z.of_nat T in
      trans_output <- TransformerEncoder.forward (transformer self) X T ;;
      let X_final :=
        Torch.relu (Dropout.forward (trans_dropout self) (training md)
                      (keep_trans md) trans_output) in
      encoded <- Linear.forward (diagnosis_encoder self) diagnoses ;;
      normed <- Norm.forward (bn_diagnosis_encoder self)
                  (bn_diagnosis_fn self) encoded ;;
      let diagnoses_enc :=
        Torch.relu (Dropout.forward (main_dropout self) (training md)
                      (keep_diagnoses md) normed) in
      flat_rep <- Torch.repeat_interleave (T' - 5) flat ;;
      diag_rep <- Torch.repeat_interleave (T' - 5) diagnoses_enc ;;
      trimmed <- (s0 <- Torch.slice 0 0 None X_final ;;
                  s1 <- Torch.slice 1 0 None s0 ;;
                  s2 <- Torch.slice 2 5 None s1 ;;
                  p <- Torch.permute [0; 2; 1] s2 ;;
                  Torch.view [B' * (T' - 5); -1]%Z p) ;;
      combined_features <- Torch.cat flat_rep [diag_rep; trimmed] 1 ;;
      projected <- Linear.forward (point self) combined_features ;;
      normed <- Norm.forward (bn_point_last self) (bn_point_fn self)
                  projected ;;
      let last_point :=
        Torch.relu (Dropout.forward (main_dropout self) (training md)
                      (keep_point md) normed) in
      scores <- Linear.forward (point_final self) last_point ;;
      Torch.view [B'; T' - 5]%Z scores
  | _ => Err ValueError
  end.

Definition loss (self : t) (y_hat y mask seq_lengths : tensor R)
    (dev : device) (sum_losses : bool) (loss_type : string) : result R :=
  let bool_type :=
    if device_eqb dev cuda then CudaBoolTensor else BoolTensor in
  if String.eqb loss_type "msle" then
    MaskedLoss.forward (msle_loss self) y_hat y (to_bool bool_type mask)
      seq_lengths sum_losses
  else if String.eqb loss_type "mse" then
    MaskedLoss.forward (mse_loss self) y_hat y (to_bool bool_type mask)
      seq_lengths sum_losses
  else Err UnboundLocalError.
End Transformer.

(** ** The end-to-end example: a model with all parameters zero

    The sizes are those of the shape example: F = 3 feature channels (8 input
    channels), D = 5 diagnoses, S = 4 static features, d_model = 8, one layer
    with two heads. *)

Definition zero_encoder_params : TransformerEncoder.params :=
  TransformerEncoder.Params (fun _ _ => 0%R) (fun _ => 0%R)
    (fun _ _ _ => 0%R).

Definition zero_params : Transformer.params :=
  Transformer.Params zero_encoder_params
    (fun _ _ => 0%R) (fun _ => 0%R) (fun _ _ => 0%R) (fun _ => 0%R)
    (fun _ _ => 0%R) (fun _ => 0%R)
    (fun _ => Ok (fun _ => 0%R)) (fun _ => Ok (fun _ => 0%R)).

Definition example_config (batchnorm : string) (no_exp : bool) : Config.t :=
  Config.Make 8 1 2 32 0.3%Q 0.45%Q 6 batchnorm 17 no_exp.

Definition eval_mode : Transformer.mode :=
  Transformer.Mode false (fun _ => true) (fun _ => true) (fun _ => true).

(** A batch of [B] sequences of length [T], all entries zero. *)
Definition example_X (B T : nat) : tensor R := Torch.zeros [B; 2 * 3 + 2; T].
Definition example_diagnoses (B : nat) : tensor R := Torch.zeros [B; 5].
Definition example_flat (B : nat) : tensor R := Torch.zeros [B; 4].

(** A batch of two padded sequences of length 10: the first has 2 valid
    timesteps, the second 10. *)
Definition ragged_mask : tensor R :=
  Tensor [2; 10] (fun idx =>
    if (nth 0 idx 0 =? 0) && (2 <=? nth 1 idx 0) then 0%R else 1%R).

Definition ragged_lengths : tensor R :=
  Tensor [2] (fun idx => if nth 0 idx 0 =? 0 then 2%R else 10%R).

(** ** Parts of the forward calls, and the tuple filter

    The two expressions below are written out in the forward calls above;
    they are named here so that what they compute can be stated. *)

(** The embedding stage of [TransformerEncoder.forward]: the input channels
    projected at every timestep, scaled by the root of [d_model], plus the
    positional signal.  The library encoder is called on its result. *)
Definition encoder_embed (self : TransformerEncoder.t) (X : tensor R)
  : result (tensor R) :=
  X <- Conv1d.forward (TransformerEncoder.input_embedding self) X ;;
  let X := Torch.scale (sqrt (INR (TransformerEncoder.d_model self))) X in
  PositionalEncoding.forward (TransformerEncoder.pos_encoder self) X.

(** The argument of [cat] in [Transformer.forward]: static features and
    diagnosis encoding repeated for every retained timestep, beside the
    encoder output without its first 5 timesteps, time moved into the
    rows. *)
Definition combined_features (B T : nat)
    (flat diagnoses_enc X_final : tensor R) : result (tensor R) :=
  let B' := Z.of_nat B in
  let T' := Z.of_nat T in
  flat_rep <- Torch.repeat_interleave (T' - 5) flat ;;
  diag_rep <- Torch.repeat_interleave (T' - 5) diagnoses_enc ;;
  trimmed <- (s0 <- Torch.slice 0 0 None X_final ;;
              s1 <- Torch.slice 1 0 None s0 ;;
              s2 <- Torch.slice 2 5 None s1 ;;
              p <- Torch.permute [0; 2; 1] s2 ;;
              Torch.view [B' * (T' - 5); -1]%Z p) ;;
  Torch.cat flat_rep [diag_rep; trimmed] 1.

(** [self.remove_none], the lambda the constructor stores:
    [tuple(xi for xi in x if xi is not None)]. *)
Fixpoint remove_none {A : Type} (x : list (option A)) : list A :=
  match x with
  | [] => []
  | Some xi :: x' => xi :: remove_none x'
  | None :: x' => remove_none x'
  end.

(** A score matrix that differs from the zero matrix only above the
    diagonal, at the keys that lie in the future of their query. *)
Definition future_scores (T : nat) : tensor R :=
  Tensor [T; T] (fun idx =>
    if nth 0 idx 0 <? nth 1 idx 0 then 5%R else 0%R).

(** * Properties *)

Unset Implicit Arguments.

#[local] Arguments Nat.div _ _ : simpl never.
#[local] Arguments Nat.modulo _ _ : simpl never.
#[local] Arguments Nat.eqb !_ !_ : simpl nomatch.
#[local] Arguments Nat.leb !_ !_ : simpl nomatch.
#[local] Arguments Nat.ltb !_ !_ : simpl nomatch.
#[local] Arguments Nat.sub !_ !_ : simpl nomatch.
#[local] Arguments Nat.min !_ !_ : simpl nomatch.
#[local] Arguments Nat.mul !_ !_ : simpl nomatch.

(** Linear arithmetic with division and remainder by constants. *)
Ltac dlia := zify; Z.to_euclidean_division_equations; lia.

(** ** Indices and broadcasting *)

Lemma in_range_length (s idx : list nat) :
  in_range s idx -> length idx = length s.
Proof. intros H. induction H; simpl; congruence. Qed.

Lemma bcast_index_id (s idx : list nat) :
  in_range s idx -> Torch.bcast_index s idx = idx.
Proof.
  intros H. unfold Torch.bcast_index.
  rewrite (in_range_length _ _ H), Nat.sub_diag. simpl.
  induction H as [|i d idx s Hlt _ IH]; simpl; [reflexivity|].
  rewrite IH. f_equal.
  destruct (Nat.eqb_spec d 1); lia.
Qed.

Lemma expandable_rev_refl (s : list nat) : Torch.expandable_rev s s = true.
Proof.
  induction s as [|a s IH]; simpl; [reflexivity|].
  now rewrite Nat.eqb_refl, IH.
Qed.

Lemma expandable_refl (s : list nat) : Torch.expandable s s = true.
Proof. apply expandable_rev_refl. Qed.

Lemma in_range_2 (a b i j : nat) :
  i < a -> j < b -> in_range [a; b] [i; j].
Proof. intros; repeat constructor; assumption. Qed.

Lemma in_range_3 (a b c i j k : nat) :
  i < a -> j < b -> k < c -> in_range [a; b; c] [i; j; k].
Proof. intros; repeat constructor; assumption. Qed.

(** ** The causal mask *)

Lemma Reqb_refl (x : R) : Torch.Reqb x x = true.
Proof. unfold Torch.Reqb. destruct (Req_dec_T x x); congruence. Qed.

Lemma Reqb_neq (x y : R) : x <> y -> Torch.Reqb x y = false.
Proof. unfold Torch.Reqb. destruct (Req_dec_T x y); congruence. Qed.

Lemma causal_mask_entries (size : nat) :
  exists m, TransformerEncoder._causal_mask size = Ok m /\
    shape m = [size; size] /\
    forall i j, i < size -> j < size ->
      elem m [i; j] = if j <=? i then Fin 0 else NegInf.
Proof.
  unfold TransformerEncoder._causal_mask, Torch.triu, Torch.transpose,
    Torch.masked_fill, Torch.ones, Torch.full, Torch.eq_scalar,
    Torch.bool_eq_int, Torch.float_of_bool, Torch.map_t, Torch.swap. simpl.
  repeat (rewrite expandable_refl; simpl).
  eexists. split; [reflexivity|]. split; [reflexivity|].
  intros i j Hi Hj. cbn [elem].
  rewrite (bcast_index_id _ _ (in_range_2 _ _ _ _ Hi Hj)). simpl.
  destruct (Nat.ltb_spec i j), (Nat.leb_spec j i); try lia.
  - rewrite Reqb_neq by lra. reflexivity.
  - rewrite Reqb_refl. reflexivity.
Qed.

(** ** Finite sums *)

Lemma fold_right_Rplus_acc (l : list R) (a : R) :
  fold_right Rplus a l = (fold_right Rplus 0 l + a)%R.
Proof. induction l as [|x l IH]; simpl; [lra | rewrite IH; lra]. Qed.

Lemma Rsum_S (n : nat) (f : nat -> R) :
  Rsum (S n) f = (Rsum n f + f n)%R.
Proof.
  unfold Rsum. rewrite seq_S, map_app, fold_right_app. simpl.
  rewrite fold_right_Rplus_acc. lra.
Qed.

Lemma Rsum_ext (n : nat) (f g : nat -> R) :
  (forall k, k < n -> f k = g k) -> Rsum n f = Rsum n g.
Proof.
  induction n as [|n IH]; intros H; [reflexivity|].
  rewrite !Rsum_S, IH, (H n) by (intros; auto with arith). reflexivity.
Qed.




Lemma Rsum_const (n : nat) (c : R) :
  Rsum n (fun _ => c) = (INR n * c)%R.
Proof.
  induction n as [|n IH]; [unfold Rsum; simpl; lra|].
  rewrite Rsum_S, IH, S_INR. lra.
Qed.




(** ** The positional table *)

Lemma stretch_index (d i : nat) : i < d -> (if d =? 1 then 0 else i) = i.
Proof. intros H. destruct (Nat.eqb_spec d 1); lia. Qed.

Lemma bcast_index_column (L pos k : nat) :
  pos < L -> Torch.bcast_index [L; 1] [pos; k] = [pos; 0].
Proof.
  intros H. unfold Torch.bcast_index.
  cbn [length Nat.sub skipn combine map fst snd Nat.eqb].
  now rewrite stretch_index.
Qed.

Lemma bcast_index_row (K pos k : nat) :
  k < K -> Torch.bcast_index [K] [pos; k] = [k].
Proof.
  intros H. unfold Torch.bcast_index.
  cbn [length Nat.sub skipn combine map fst snd].
  now rewrite stretch_index.
Qed.

Lemma arange_unit (n : nat) :
  Torch.arange 0 n 1 = Ok (Tensor [n] (fun idx => INR (0 + nth 0 idx 0 * 1))).
Proof.
  unfold Torch.arange. simpl.
  replace ((n - 0 + 1 - 1) / 1) with n; [reflexivity|].
  rewrite Nat.div_1_r. lia.
Qed.

Lemma broadcast_column_row (L K : nat) :
  Torch.broadcast_shapes [L; 1] [K] = Ok [L; K].
Proof.
  unfold Torch.broadcast_shapes. simpl.
  destruct K as [|[|K]]; reflexivity.
Qed.

Lemma expandable_cols (L K K' : nat) :
  Torch.expandable [L; K] [L; K'] = (K =? K') || (K =? 1).
Proof.
  unfold Torch.expandable. cbn [rev app Torch.expandable_rev].
  rewrite Nat.eqb_refl. cbn [orb andb]. now rewrite andb_true_r.
Qed.

(** The steps of the constructor up to the assignment of the cosines, whose
    fate is left as the test [expandable]. *)
Ltac positional_init_steps d :=
  unfold PositionalEncoding.__init__;
  rewrite arange_unit; cbn [bind]; unfold Torch.unsqueeze;
  cbn [shape length bind firstn skipn app];
  change (1 <=? 1) with true; cbv iota; cbn [bind];
  unfold Torch.arange at 1; change (0 <? 2) with true; cbv iota;
  cbn [bind];
  replace (d - 0 + 2 - 1) with (d + 1) by lia;
  replace (0 <? d) with true by (symmetry; apply Nat.ltb_lt; lia);
  unfold Torch.mul, Torch.broadcast_op; cbn [shape Torch.map_t Torch.scale];
  rewrite broadcast_column_row; cbn [bind];
  unfold Torch.setitem_cols;
  cbn [shape Torch.zeros Torch.full Torch.map_t bind];
  change (0 <? 2) with true; cbv iota;
  replace (d - 0 + 2 - 1) with (d + 1) by lia;
  rewrite expandable_cols, Nat.eqb_refl; cbn [orb bind shape];
  replace (d - 1 + 2 - 1) with d by lia;
  rewrite expandable_cols.

Lemma positional_init_ok (d L : nat) :
  0 < d ->
  ((d + 1) / 2 =? d / 2) || ((d + 1) / 2 =? 1) = true ->
  exists m,
    PositionalEncoding.__init__ d L = Ok m /\
    shape (PositionalEncoding.pe m) = [1; d; L] /\
    forall pos c, pos < L -> c < d ->
      elem (PositionalEncoding.pe m) [0; c; pos] =
        if Nat.even c
        then sin (INR pos * exp (INR c * (- ln 10000 / INR d)))
        else cos (INR pos * exp (INR (c - 1) * (- ln 10000 / INR d))).
Proof.
  intros Hd HK.
  positional_init_steps d.
  rewrite HK. cbn [bind].
  unfold Torch.permute.
  cbn [shape length Torch.is_perm map nth seq forallb existsb Nat.eqb andb
       orb bind].
  eexists. split; [reflexivity|]. split; [reflexivity|].
  intros pos c Hpos Hc.
  cbn [PositionalEncoding.pe elem Torch.index_of map seq length nth Nat.eqb
       firstn skipn app].
  destruct (Nat.even c) eqn:Hev.
  - apply Nat.even_spec in Hev. destruct Hev as [k Hk].
    replace ((1 <=? c) && ((c - 1) mod 2 =? 0)) with false.
    2:{ symmetry. apply andb_false_iff.
        destruct (Nat.leb_spec 1 c); [right|left; reflexivity].
        apply Nat.eqb_neq. dlia. }
    replace ((0 <=? c) && ((c - 0) mod 2 =? 0)) with true.
    2:{ symmetry. apply andb_true_iff. split; [reflexivity|].
        apply Nat.eqb_eq. dlia. }
    assert (Hin : (c - 0) / 2 < (d + 1) / 2) by dlia.
    rewrite (bcast_index_id _ _ (in_range_2 _ _ _ _ Hpos Hin)).
    cbn [elem Torch.map_t Torch.scale].
    rewrite (bcast_index_column _ _ _ Hpos), (bcast_index_row _ _ _ Hin).
    cbn [nth app].
    replace (0 + pos * 1) with pos by lia.
    replace (0 + (c - 0) / 2 * 2) with c by dlia. reflexivity.
  - assert (Hodd : Nat.odd c = true) by (unfold Nat.odd; now rewrite Hev).
    apply Nat.odd_spec in Hodd. destruct Hodd as [k Hk].
    replace ((1 <=? c) && ((c - 1) mod 2 =? 0)) with true.
    2:{ symmetry. apply andb_true_iff. split.
        - apply Nat.leb_le. lia.
        - apply Nat.eqb_eq. dlia. }
    assert (Hin : (c - 1) / 2 < (d + 1) / 2) by dlia.
    rewrite (bcast_index_id _ _ (in_range_2 _ _ _ _ Hpos Hin)).
    cbn [elem Torch.map_t Torch.scale].
    rewrite (bcast_index_column _ _ _ Hpos), (bcast_index_row _ _ _ Hin).
    cbn [nth app].
    replace (0 + pos * 1) with pos by lia.
    replace (0 + (c - 1) / 2 * 2) with (c - 1) by dlia. reflexivity.
Qed.

Lemma positional_init_odd (d L : nat) :
  Nat.odd d = true -> 3 <= d ->
  PositionalEncoding.__init__ d L = Err RuntimeError.
Proof.
  intros Hodd Hd. apply Nat.odd_spec in Hodd. destruct Hodd as [k Hk].
  positional_init_steps d.
  replace (((d + 1) / 2 =? d / 2) || ((d + 1) / 2 =? 1)) with false;
    [reflexivity|].
  symmetry. apply orb_false_iff. split; apply Nat.eqb_neq; dlia.
Qed.

Lemma positional_init_zero (L : nat) :
  PositionalEncoding.__init__ 0 L = Err ZeroDivisionError.
Proof.
  unfold PositionalEncoding.__init__.
  rewrite arange_unit. reflexivity.
Qed.

Lemma even_half (d : nat) : Nat.even d = true -> (d + 1) / 2 = d / 2.
Proof.
  intros H. apply Nat.even_spec in H. destruct H as [k Hk]. dlia.
Qed.

Lemma positional_init_inv (d L : nat) (m : PositionalEncoding.t) :
  PositionalEncoding.__init__ d L = Ok m ->
  0 < d /\ (Nat.even d = true \/ d = 1) /\
  shape (PositionalEncoding.pe m) = [1; d; L] /\
  forall pos c, pos < L -> c < d ->
    elem (PositionalEncoding.pe m) [0; c; pos] =
      if Nat.even c
      then sin (INR pos * exp (INR c * (- ln 10000 / INR d)))
      else cos (INR pos * exp (INR (c - 1) * (- ln 10000 / INR d))).
Proof.
  intros Hm.
  destruct (Nat.eq_dec d 0) as [->|Hd0].
  { rewrite positional_init_zero in Hm. discriminate. }
  destruct (Nat.even d) eqn:Hev.
  - destruct (positional_init_ok d L) as (m' & Hm' & Hs & He); [lia| |].
    + rewrite (even_half _ Hev), Nat.eqb_refl. reflexivity.
    + assert (m' = m) by congruence. subst m'.
      repeat split; auto. lia.
  - destruct (Nat.eq_dec d 1) as [->|Hd1].
    + destruct (positional_init_ok 1 L) as (m' & Hm' & Hs & He);
        [lia|reflexivity|].
      assert (m' = m) by congruence. subst m'.
      repeat split; auto.
    + rewrite positional_init_odd in Hm; [discriminate| |].
      * unfold Nat.odd. now rewrite Hev.
      * destruct d as [|[|[|d]]]; try lia. discriminate.
Qed.

Lemma broadcast_batch (B d T : nat) :
  Torch.broadcast_shapes [B; d; T] [1; d; T] = Ok [B; d; T].
Proof.
  unfold Torch.broadcast_shapes. cbn [rev app Torch.broadcast_rev bind].
  rewrite !Nat.eqb_refl. cbn [bind].
  destruct (Nat.eqb_spec B 1) as [->|_]; [reflexivity|].
  destruct (B =? 1); reflexivity.
Qed.

Lemma bcast_index_batch (d T b c t : nat) :
  c < d -> t < T -> Torch.bcast_index [1; d; T] [b; c; t] = [0; c; t].
Proof.
  intros Hc Ht. unfold Torch.bcast_index.
  cbn [length Nat.sub skipn combine map fst snd Nat.eqb].
  now rewrite !stretch_index.
Qed.

Lemma positional_forward_ok (m : PositionalEncoding.t) (X : tensor R)
    (B d L T : nat) :
  shape (PositionalEncoding.pe m) = [1; d; L] ->
  shape X = [B; d; T] -> T <= L ->
  exists Y,
    PositionalEncoding.forward m X = Ok Y /\
    shape Y = [B; d; T] /\
    forall b c t, b < B -> c < d -> t < T ->
      elem Y [b; c; t] =
        (elem X [b; c; t] + elem (PositionalEncoding.pe m) [0%nat; c; t])%R.
Proof.
  intros Hpe HX HT. unfold PositionalEncoding.forward, Torch.slice.
  rewrite HX, Hpe. simpl. unfold Torch.set_nth. simpl.
  rewrite !Nat.min_0_l, !Nat.sub_0_r, (Nat.min_l T L HT).
  unfold Torch.add, Torch.broadcast_op. rewrite HX.
  cbn [shape]. rewrite broadcast_batch. cbn [bind].
  eexists. split; [reflexivity|]. split; [reflexivity|].
  intros b c t Hb Hc Ht. cbn [elem].
  rewrite (bcast_index_id _ _ (in_range_3 _ _ _ _ _ _ Hb Hc Ht)).
  rewrite (bcast_index_batch _ _ b _ _ Hc Ht). simpl.
  rewrite !Nat.add_0_r. reflexivity.
Qed.

Lemma broadcast_rev_error (s1 s2 : list nat) (e : error) :
  Torch.broadcast_rev s1 s2 = Err e -> e = RuntimeError.
Proof.
  revert s2 e. induction s1 as [|a s1 IH]; intros [|b s2] e H;
    try discriminate.
  cbn [Torch.broadcast_rev] in H.
  destruct (Torch.broadcast_rev s1 s2) as [r|e'] eqn:Hr; cbn [bind] in H.
  - destruct (a =? b); [discriminate|].
    destruct (a =? 1); [discriminate|].
    destruct (b =? 1); [discriminate|]. congruence.
  - apply IH in Hr. congruence.
Qed.

Lemma positional_forward_too_long (m : PositionalEncoding.t) (X : tensor R)
    (B C d L T : nat) :
  shape (PositionalEncoding.pe m) = [1; d; L] ->
  shape X = [B; C; T] -> 2 <= L -> L < T ->
  PositionalEncoding.forward m X = Err RuntimeError.
Proof.
  intros Hpe HX HL HT. unfold PositionalEncoding.forward, Torch.slice.
  rewrite HX, Hpe. simpl. unfold Torch.set_nth. simpl.
  rewrite !Nat.min_0_l, !Nat.sub_0_r, (Nat.min_r T L) by lia.
  unfold Torch.add, Torch.broadcast_op, Torch.broadcast_shapes. rewrite HX.
  cbn [shape rev app].
  destruct (Torch.broadcast_rev [T; C; B] [L; d; 1]) as [r|e] eqn:Hr.
  - exfalso.
    change (Torch.broadcast_rev [T; C; B] [L; d; 1])
      with (r <- Torch.broadcast_rev [C; B] [d; 1] ;;
            if T =? L then Ok (T :: r)
            else if T =? 1 then Ok (L :: r)
            else if L =? 1 then Ok (T :: r)
            else Err RuntimeError) in Hr.
    destruct (Torch.broadcast_rev [C; B] [d; 1]); cbn [bind] in Hr;
      [|discriminate].
    replace (T =? L) with false in Hr by (symmetry; apply Nat.eqb_neq; lia).
    replace (T =? 1) with false in Hr by (symmetry; apply Nat.eqb_neq; lia).
    replace (L =? 1) with false in Hr by (symmetry; apply Nat.eqb_neq; lia).
    discriminate.
  - apply broadcast_rev_error in Hr. subst e. reflexivity.
Qed.

(** A bare table of a single position is another matter: its one column is
    stretched over every timestep, and the sum is formed without any
    error.  No encoder is built with such a table. *)
Lemma positional_forward_stretches (m : PositionalEncoding.t) (X : tensor R)
    (B d T : nat) :
  shape (PositionalEncoding.pe m) = [1; d; 1] ->
  shape X = [B; d; T] ->
  exists Y, PositionalEncoding.forward m X = Ok Y.
Proof.
  intros Hpe HX. unfold PositionalEncoding.forward, Torch.slice.
  rewrite HX, Hpe. simpl. unfold Torch.set_nth. simpl.
  rewrite !Nat.min_0_l, !Nat.sub_0_r.
  unfold Torch.add, Torch.broadcast_op, Torch.broadcast_shapes. rewrite HX.
  cbn [shape rev app Torch.broadcast_rev bind]. rewrite !Nat.eqb_refl.
  destruct (B =? 1), (Nat.min T 1 =? 1) eqn:Hmin, (T =? Nat.min T 1) eqn:HT,
    (T =? 1) eqn:HT1; cbn [bind]; try (eexists; reflexivity).
  exfalso. apply Nat.eqb_neq in Hmin, HT, HT1. lia.
  exfalso. apply Nat.eqb_neq in Hmin, HT, HT1. lia.
Qed.

Lemma angle_as_power (pos : R) (k d : nat) :
  0 < d ->
  (pos * exp (INR (2 * k) * (- ln 10000 / INR d)) =
   pos / Rpower 10000 (2 * INR k / INR d))%R.
Proof.
  intros Hd. unfold Rpower, Rdiv at 2. rewrite <- exp_Ropp. do 2 f_equal.
  rewrite mult_INR. simpl. field. apply not_0_INR. lia.
Qed.

(** C6. A constructed positional table has shape 1 x d_model x max_len and
    holds sin(pos / 10000^(2i/d_model)) in every even channel 2i and the
    cosine of the same argument in the odd channel 2i+1; on X of shape
    B x d_model x T (T columns being there) the forward call returns X plus
    the first T columns of the table, the same for every batch entry; the
    call reads only the table and X, so inputs that agree give results that
    agree. *)
Theorem positional_table_and_add (d_model max_len : nat)
    (m : PositionalEncoding.t) :
  PositionalEncoding.__init__ d_model max_len = Ok m ->
  shape (PositionalEncoding.pe m) = [1; d_model; max_len] /\
  (forall pos i, pos < max_len ->
     (2 * i < d_model ->
      elem (PositionalEncoding.pe m) [0; 2 * i; pos] =
        sin (INR pos / Rpower 10000 (2 * INR i / INR d_model))) /\
     (2 * i + 1 < d_model ->
      elem (PositionalEncoding.pe m) [0; 2 * i + 1; pos] =
        cos (INR pos / Rpower 10000 (2 * INR i / INR d_model)))) /\
  forall X B T, shape X = [B; d_model; T] -> T <= max_len ->
    exists Y,
      PositionalEncoding.forward m X = Ok Y /\
      shape Y = [B; d_model; T] /\
      (forall b c t, b < B -> c < d_model -> t < T ->
         elem Y [b; c; t] =
           (elem X [b; c; t] +
            elem (PositionalEncoding.pe m) [0%nat; c; t])%R) /\
      forall X', shape X' = shape X ->
        (forall b c t, b < B -> c < d_model -> t < T ->
           elem X' [b; c; t] = elem X [b; c; t]) ->
        exists Y',
          PositionalEncoding.forward m X' = Ok Y' /\
          shape Y' = shape Y /\
          forall b c t, b < B -> c < d_model -> t < T ->
            elem Y' [b; c; t] = elem Y [b; c; t].
Proof.
  intros Hm. apply positional_init_inv in Hm.
  destruct Hm as (Hd & _ & Hs & He). split; [exact Hs|]. split.
  - intros pos i Hpos. split; intros Hc.
    + rewrite (He pos (2 * i) Hpos Hc).
      replace (Nat.even (2 * i)) with true
        by (symmetry; apply Nat.even_spec; now exists i).
      f_equal. now apply angle_as_power.
    + rewrite (He pos (2 * i + 1) Hpos Hc).
      replace (Nat.even (2 * i + 1)) with false.
      2:{ symmetry. rewrite <- Nat.negb_odd.
          replace (Nat.odd (2 * i + 1)) with true; [reflexivity|].
          symmetry. apply Nat.odd_spec. now exists i. }
      replace (2 * i + 1 - 1) with (2 * i) by lia.
      f_equal. now apply angle_as_power.
  - intros X B T HX HT.
    destruct (positional_forward_ok m X _ _ _ _ Hs HX HT)
      as (Y & HY & HsY & HeY).
    exists Y. repeat split; try assumption.
    intros X' HX' Hagree. rewrite HX in HX'.
    destruct (positional_forward_ok m X' _ _ _ _ Hs HX' HT)
      as (Y' & HY' & HsY' & HeY').
    exists Y'. split; [exact HY'|]. split; [congruence|].
    intros b c t Hb Hc Ht.
    rewrite (HeY' b c t Hb Hc Ht), (HeY b c t Hb Hc Ht), Hagree by assumption.
    reflexivity.
Qed.

Lemma positional_table_and_add_witness :
  exists m,
    PositionalEncoding.__init__ 4 3 = Ok m /\
    elem (PositionalEncoding.pe m) [0; 2; 1] =
      sin (INR 1 / Rpower 10000 (2 * INR 1 / INR 4)) /\
    elem (PositionalEncoding.pe m) [0; 3; 1] =
      cos (INR 1 / Rpower 10000 (2 * INR 1 / INR 4)) /\
    exists Y,
      PositionalEncoding.forward m (Torch.ones [2; 4; 3]) = Ok Y /\
      shape Y = [2; 4; 3].
Proof.
  eexists. split; [reflexivity|].
  destruct (positional_table_and_add 4 3 _ eq_refl) as (_ & He & Hf).
  destruct (He 1 1 (le_S _ _ (le_n 2))) as [Hsin Hcos].
  split; [apply Hsin; repeat constructor|].
  split; [apply Hcos; repeat constructor|].
  destruct (Hf (Torch.ones [2; 4; 3]) 2 3 eq_refl (le_n 3))
    as (Y & HY & HsY & _).
  exists Y. split; assumption.
Defined.

(** ** Sequences longer than the table *)

Lemma encoder_init_inv (init : TransformerEncoder.params)
    (input_size d_model num_layers num_heads feedforward_size : nat)
    (dropout : Q) (enc : TransformerEncoder.t) :
  TransformerEncoder.__init__ init input_size d_model num_layers num_heads
    feedforward_size dropout = Ok enc ->
  exists table layer,
    PositionalEncoding.__init__ d_model PositionalEncoding.default_max_len
      = Ok table /\
    TransformerEncoderLayer.__init__ d_model num_heads feedforward_size
      dropout = Ok layer /\
    enc = TransformerEncoder.Make d_model
            (Conv1d.Make input_size d_model
               (TransformerEncoder.embedding_weight init)
               (TransformerEncoder.embedding_bias init))
            table layer
            (NNTransformerEncoder.Make layer num_layers
               (TransformerEncoder.encoder_run init)).
Proof.
  unfold TransformerEncoder.__init__. intros H.
  destruct (PositionalEncoding.__init__ _ _) as [table|]; [|discriminate].
  destruct (TransformerEncoderLayer.__init__ _ _ _ _) as [layer|];
    [|discriminate].
  cbn [bind] in H. exists table, layer. repeat split; congruence.
Qed.

Lemma conv1d_forward_shape (m : Conv1d.t) (x y : tensor R) (b c l : nat) :
  shape x = [b; c; l] -> Conv1d.forward m x = Ok y ->
  shape y = [b; Conv1d.out_channels m; l].
Proof.
  intros Hx. unfold Conv1d.forward. rewrite Hx.
  destruct (c =? Conv1d.in_channels m); [|discriminate].
  intros H. injection H as <-. reflexivity.
Qed.

Lemma conv1d_forward_error (m : Conv1d.t) (x : tensor R) (e : error) :
  Conv1d.forward m x = Err e -> e = RuntimeError.
Proof.
  unfold Conv1d.forward.
  destruct (shape x) as [|b [|c [|l [|]]]]; try congruence.
  destruct (c =? Conv1d.in_channels m); congruence.
Qed.

Lemma encoder_forward_too_long (init : TransformerEncoder.params)
    (input_size d_model num_layers num_heads feedforward_size : nat)
    (dropout : Q) (enc : TransformerEncoder.t) (X : tensor R)
    (B C T Tmask : nat) :
  TransformerEncoder.__init__ init input_size d_model num_layers num_heads
    feedforward_size dropout = Ok enc ->
  shape X = [B; C; T] ->
  PositionalEncoding.default_max_len < T ->
  PositionalEncoding.max_len (TransformerEncoder.pos_encoder enc)
    = PositionalEncoding.default_max_len /\
  TransformerEncoder.forward enc X Tmask = Err RuntimeError.
Proof.
  intros Henc HX HT.
  destruct (encoder_init_inv _ _ _ _ _ _ _ _ Henc)
    as (table & layer & Htable & _ & ->).
  apply positional_init_inv in Htable. destruct Htable as (_ & _ & Hs & _).
  unfold PositionalEncoding.max_len. cbn [TransformerEncoder.pos_encoder].
  rewrite Hs. split; [reflexivity|].
  unfold TransformerEncoder.forward.
  cbn [TransformerEncoder.input_embedding TransformerEncoder.pos_encoder
       TransformerEncoder.d_model].
  destruct (Conv1d.forward _ X) as [X1|e] eqn:Hconv; cbn [bind].
  - eapply conv1d_forward_shape in Hconv; [|exact HX].
    rewrite (positional_forward_too_long table
               (Torch.scale (sqrt (INR d_model)) X1)
               B _ d_model PositionalEncoding.default_max_len T Hs Hconv);
      [reflexivity| |exact HT].
    unfold PositionalEncoding.default_max_len. simpl. lia.
  - apply conv1d_forward_error in Hconv. now subst e.
Qed.

(** C5. An encoder is built with a positional table of 14*24 positions;
    for every batch whose time dimension exceeds that, the encoder's forward
    call raises: nothing is truncated and no result is returned. *)
Theorem encoder_rejects_long_sequences (init : TransformerEncoder.params)
    (input_size d_model num_layers num_heads feedforward_size : nat)
    (dropout : Q) (enc : TransformerEncoder.t) (X : tensor R)
    (B C T Tmask : nat) :
  TransformerEncoder.__init__ init input_size d_model num_layers num_heads
    feedforward_size dropout = Ok enc ->
  shape X = [B; C; T] ->
  PositionalEncoding.max_len (TransformerEncoder.pos_encoder enc) < T ->
  TransformerEncoder.forward enc X Tmask = Err RuntimeError.
Proof.
  intros Henc HX HT.
  destruct (Nat.lt_ge_cases PositionalEncoding.default_max_len T) as [Hlt|Hge].
  - exact (proj2 (encoder_forward_too_long _ _ _ _ _ _ _ _ _ _ _ _ Tmask
                    Henc HX Hlt)).
  - exfalso.
    destruct (encoder_init_inv _ _ _ _ _ _ _ _ Henc)
      as (table & layer & Htable & _ & ->).
    apply positional_init_inv in Htable. destruct Htable as (_ & _ & Hs & _).
    unfold PositionalEncoding.max_len in HT.
    cbn [TransformerEncoder.pos_encoder] in HT. rewrite Hs in HT.
    cbn [nth] in HT. lia.
Qed.

Lemma encoder_rejects_long_sequences_witness :
  exists enc,
    TransformerEncoder.__init__ zero_encoder_params 8 8 1 2 32 0.3%Q = Ok enc /\
    TransformerEncoder.forward enc (example_X 2 337) 337 = Err RuntimeError.
Proof.
  eexists. split; [reflexivity|].
  apply (encoder_rejects_long_sequences zero_encoder_params 8 8 1 2 32 0.3%Q
           _ (example_X 2 337) 2 8 337 337 eq_refl eq_refl).
  apply le_n.
Defined.

(** ** Odd widths *)

(** C9 (amended). The positional table can be built exactly when d_model is
    positive and even, or 1.  For every odd d_model >= 3 the constructor
    raises, because the ceil(d_model/2) columns of cosines cannot be assigned
    to the floor(d_model/2) odd channels; for d_model = 1 the single column
    is stretched over the empty set of odd channels and the table holds
    sin(pos) in its only channel. *)
Theorem positional_encoding_width (d_model max_len : nat) :
  (is_ok (PositionalEncoding.__init__ d_model max_len) = true <->
   0 < d_model /\ (Nat.even d_model = true \/ d_model = 1)) /\
  (Nat.odd d_model = true -> 3 <= d_model ->
   PositionalEncoding.__init__ d_model max_len = Err RuntimeError) /\
  (d_model = 1 ->
   exists m,
     PositionalEncoding.__init__ d_model max_len = Ok m /\
     shape (PositionalEncoding.pe m) = [1; 1; max_len] /\
     forall pos, pos < max_len ->
       elem (PositionalEncoding.pe m) [0; 0; pos] = sin (INR pos)).
Proof.
  split; [|split].
  - split.
    + destruct (PositionalEncoding.__init__ d_model max_len) as [m|] eqn:Hm;
        [|discriminate].
      intros _. apply positional_init_inv in Hm. tauto.
    + intros [Hd Hpar].
      destruct (positional_init_ok d_model max_len Hd) as (m & -> & _);
        [|reflexivity].
      destruct Hpar as [Hev| ->]; [|reflexivity].
      rewrite (even_half _ Hev), Nat.eqb_refl. reflexivity.
  - apply positional_init_odd.
  - intros ->.
    destruct (positional_init_ok 1 max_len) as (m & Hm & Hs & He);
      [lia|reflexivity|].
    exists m. split; [exact Hm|]. split; [exact Hs|].
    intros pos Hpos. rewrite (He pos 0 Hpos) by lia. simpl.
    f_equal. rewrite Rmult_0_l, exp_0. lra.
Qed.

Lemma positional_encoding_width_witness :
  PositionalEncoding.__init__ 5 PositionalEncoding.default_max_len
    = Err RuntimeError /\
  exists m, PositionalEncoding.__init__ 1 4 = Ok m /\
            elem (PositionalEncoding.pe m) [0; 0; 3] = sin (INR 3).
Proof.
  destruct (positional_encoding_width 5 PositionalEncoding.default_max_len)
    as (_ & Hodd & _).
  split; [apply Hodd; [reflexivity|repeat constructor]|].
  destruct (positional_encoding_width 1 4) as (_ & _ & Hone).
  destruct (Hone eq_refl) as (m & Hm & _ & He).
  exists m. split; [exact Hm|]. apply He. repeat constructor.
Defined.

(** The claim as stated fails at the odd width 1. *)
Lemma positional_encoding_width_one_builds :
  Nat.odd 1 = true /\
  exists m,
    PositionalEncoding.__init__ 1 PositionalEncoding.default_max_len = Ok m.
Proof. split; [reflexivity|]. eexists. reflexivity. Qed.

(** ** Construction of the model *)

(** A model that was built is the record [__init__] assembles around its
    encoder. *)
Ltac invert_init H enc Henc :=
  unfold Transformer.__init__ in H;
  destruct (Dropout.__init__ (Config.trans_dropout_rate _)) as [?drop|];
  [|discriminate H];
  destruct (Dropout.__init__ (Config.main_dropout_rate _)) as [?drop|];
  [|discriminate H];
  destruct (TransformerEncoder.__init__ _ _ _ _ _ _ _) as [enc|] eqn:Henc;
  [cbn [bind] in H; injection H as <- | discriminate H].

Lemma str_eqb_neq (s t : string) : s <> t -> String.eqb s t = false.
Proof. apply String.eqb_neq. Qed.

(** C8. Whatever the [batchnorm] string, the model is built whenever its
    encoder and its dropout layers are.  "mybatchnorm" and "low_momentum" put the custom batch norm
    at both stages (momentum 0.01 for "low_momentum", 0.1 otherwise),
    "default" the standard batch norm at both, "pointonly" the custom one at
    the point stage only, and every other string the identity at both. *)
Theorem batchnorm_dispatch (init : Transformer.params) (config : Config.t)
    (F D S : nat) (enc : TransformerEncoder.t) (main_dropout : Dropout.t) :
  TransformerEncoder.__init__ (Transformer.encoder_params init)
    (2 * F + 2) (Config.d_model config) (Config.n_layers config)
    (Config.n_heads config) (Config.feedforward_size config)
    (Config.trans_dropout_rate config) = Ok enc ->
  Dropout.__init__ (Config.main_dropout_rate config) = Ok main_dropout ->
  let bn := Config.batchnorm config in
  let dsize := Config.diagnosis_size config in
  let psize := Config.last_linear_size config in
  exists m,
    Transformer.__init__ init config F D S = Ok m /\
    (bn = "mybatchnorm"%string ->
     Transformer.bn_diagnosis_encoder m = Norm.MyBatchNorm1d dsize 0.1 /\
     Transformer.bn_point_last m = Norm.MyBatchNorm1d psize 0.1) /\
    (bn = "low_momentum"%string ->
     Transformer.bn_diagnosis_encoder m = Norm.MyBatchNorm1d dsize 0.01 /\
     Transformer.bn_point_last m = Norm.MyBatchNorm1d psize 0.01) /\
    (bn = "default"%string ->
     Transformer.bn_diagnosis_encoder m = Norm.BatchNorm1d dsize /\
     Transformer.bn_point_last m = Norm.BatchNorm1d psize) /\
    (bn = "pointonly"%string ->
     Transformer.bn_diagnosis_encoder m = Norm.EmptyModule /\
     Transformer.bn_point_last m = Norm.MyBatchNorm1d psize 0.1) /\
    (bn <> "mybatchnorm"%string -> bn <> "low_momentum"%string ->
     bn <> "default"%string -> bn <> "pointonly"%string ->
     Transformer.bn_diagnosis_encoder m = Norm.EmptyModule /\
     Transformer.bn_point_last m = Norm.EmptyModule /\
     forall fn x,
       Norm.forward (Transformer.bn_diagnosis_encoder m) fn x = Ok x /\
       Norm.forward (Transformer.bn_point_last m) fn x = Ok x).
Proof.
  intros Henc Hdrop bn dsize psize.
  destruct (encoder_init_inv _ _ _ _ _ _ _ _ Henc)
    as (table & layer & _ & Hlayer & _).
  assert (Htrans : exists trans_dropout,
            Dropout.__init__ (Config.trans_dropout_rate config)
              = Ok trans_dropout).
  { unfold TransformerEncoderLayer.__init__ in Hlayer.
    destruct (0 <? Config.n_heads config); [|discriminate].
    destruct (Config.d_model config mod Config.n_heads config =? 0);
      [|discriminate].
    destruct (Dropout.__init__ (Config.trans_dropout_rate config)) as [t|];
      [|discriminate].
    exists t. reflexivity. }
  destruct Htrans as [trans_dropout Htrans].
  unfold Transformer.__init__. rewrite Htrans, Hdrop, Henc.
  cbn [bind]. eexists. split; [reflexivity|].
  cbn [Transformer.bn_diagnosis_encoder Transformer.bn_point_last].
  fold bn dsize psize. unfold str_in. cbn [existsb].
  split; [intros ->; split; reflexivity|].
  split; [intros ->; split; reflexivity|].
  split; [intros ->; split; reflexivity|].
  split; [intros ->; split; reflexivity|].
  intros H1 H2 H3 H4.
  rewrite (str_eqb_neq _ _ H1), (str_eqb_neq _ _ H2),
    (str_eqb_neq _ _ H3), (str_eqb_neq _ _ H4).
  cbn [orb]. repeat split.
Qed.

Lemma batchnorm_dispatch_witness :
  exists m,
    Transformer.__init__ zero_params (example_config "batch_norm" false)
      3 5 4 = Ok m /\
    Transformer.bn_diagnosis_encoder m = Norm.EmptyModule /\
    Transformer.bn_point_last m = Norm.EmptyModule.
Proof.
  destruct (batchnorm_dispatch zero_params (example_config "batch_norm" false)
              3 5 4 _ _ eq_refl eq_refl) as (m & Hm & _ & _ & _ & _ & Hother).
  exists m. split; [exact Hm|].
  destruct Hother as (Hd & Hp & _); try discriminate.
  split; assumption.
Defined.

(** ** The loss *)

(** C7. A model that was built sends "msle" to the squared-log-difference
    loss and "mse" to the squared-difference loss; for every other
    [loss_type] the call raises (the local [loss] is read unassigned) and
    returns no value, whatever the other arguments. *)
Theorem loss_dispatch (init : Transformer.params) (config : Config.t)
    (F D S : nat) (m : Transformer.t)
    (y_hat y mask seq_lengths : tensor R) (dev : device)
    (sum_losses : bool) (loss_type : string) :
  Transformer.__init__ init config F D S = Ok m ->
  (loss_type = "msle"%string ->
   Transformer.loss m y_hat y mask seq_lengths dev sum_losses loss_type =
     MaskedLoss.forward MaskedLoss.MSLE y_hat y
       (to_bool (if device_eqb dev cuda then CudaBoolTensor else BoolTensor)
          mask)
       seq_lengths sum_losses) /\
  (loss_type = "mse"%string ->
   Transformer.loss m y_hat y mask seq_lengths dev sum_losses loss_type =
     MaskedLoss.forward MaskedLoss.MSE y_hat y
       (to_bool (if device_eqb dev cuda then CudaBoolTensor else BoolTensor)
          mask)
       seq_lengths sum_losses) /\
  (forall a b, MaskedLoss.per_element MaskedLoss.MSLE a b
               = ((ln a - ln b) ^ 2)%R) /\
  (forall a b, MaskedLoss.per_element MaskedLoss.MSE a b
               = ((a - b) ^ 2)%R) /\
  (loss_type <> "msle"%string -> loss_type <> "mse"%string ->
   Transformer.loss m y_hat y mask seq_lengths dev sum_losses loss_type =
     Err UnboundLocalError).
Proof.
  intros Hm. invert_init Hm enc Henc. unfold Transformer.loss.
  cbn [Transformer.msle_loss Transformer.mse_loss].
  split; [intros ->; reflexivity|].
  split; [intros ->; reflexivity|].
  split; [reflexivity|]. split; [reflexivity|].
  intros H1 H2. now rewrite (str_eqb_neq _ _ H1), (str_eqb_neq _ _ H2).
Qed.

Lemma loss_dispatch_witness :
  exists m,
    Transformer.__init__ zero_params (example_config "default" false) 3 5 4
      = Ok m /\
    Transformer.loss m (Torch.ones [2; 2]) (Torch.ones [2; 2])
      (Torch.ones [2; 2]) (Torch.ones [2]) cpu true "mae"
      = Err UnboundLocalError.
Proof.
  eexists. split; [reflexivity|].
  apply (loss_dispatch zero_params (example_config "default" false) 3 5 4 _
           (Torch.ones [2; 2]) (Torch.ones [2; 2]) (Torch.ones [2; 2])
           (Torch.ones [2]) cpu true "mae" eq_refl); discriminate.
Defined.

(** ** The output transform *)

Lemma bind_bind_eq {A B C : Type} (r : result A) (k : A -> result C)
    (f : A -> result B) (g : B -> result C) :
  (forall a, k a = bind (f a) g) -> bind r k = bind (bind r f) g.
Proof. intros H. destruct r; cbn [bind]; [apply H|reflexivity]. Qed.

Lemma forward_as_transform (m : Transformer.t) (md : Transformer.mode)
    (X diagnoses flat : tensor R) :
  Transformer.forward m md X diagnoses flat =
    (raw <- Transformer.raw_scores m md X diagnoses flat ;;
     Ok (Hardtanh.forward (Transformer.hardtanh m)
           (if Transformer.no_exp m then raw else Torch.map_t exp raw))).
Proof.
  unfold Transformer.forward, Transformer.raw_scores.
  destruct (shape X) as [|B [|C [|T [|]]]]; try reflexivity.
  repeat (apply bind_bind_eq; intros ?; cbv zeta).
  destruct (Transformer.no_exp m);
    (apply bind_bind_eq; intros scores;
     destruct (Torch.view _ scores); reflexivity).
Qed.




(** ** The per-sequence mean *)

Lemma Rsum_scal (n : nat) (c : R) (f : nat -> R) :
  Rsum n (fun k => c * f k)%R = (c * Rsum n f)%R.
Proof.
  induction n as [|n IH]; [unfold Rsum; simpl; lra|].
  rewrite !Rsum_S, IH. lra.
Qed.

Lemma same_shape_refl (s : list nat) : MaskedLoss.same_shape s s = true.
Proof.
  unfold MaskedLoss.same_shape.
  destruct (list_eq_dec Nat.eq_dec s s); congruence.
Qed.

(** C4. With [sum_losses = false] the loss is the mean over the batch of
    every sequence's masked errors averaged over its valid length; so when
    every valid element has the same error e (and every sequence has at
    least one valid element, its valid length being the number of them)
    the loss is exactly e, whatever the lengths. *)
Theorem per_sequence_mean_loss (init : Transformer.params)
    (config : Config.t) (F D S : nat) (m : Transformer.t)
    (loss_type : string) (k : MaskedLoss.kind)
    (y_hat y mask seq_lengths : tensor R) (dev : device) (B N : nat)
    (e : R) :
  Transformer.__init__ init config F D S = Ok m ->
  (loss_type = "mse"%string /\ k = MaskedLoss.MSE) \/
  (loss_type = "msle"%string /\ k = MaskedLoss.MSLE) ->
  shape y_hat = [B; N] -> shape y = [B; N] -> shape mask = [B; N] ->
  shape seq_lengths = [B] -> 0 < B ->
  (forall i, i < B ->
     (0 < elem seq_lengths [i])%R /\
     Rsum N (fun j => if Torch.Reqb (elem mask [i; j]) 0 then 0%R else 1%R)
       = elem seq_lengths [i]) ->
  (forall i j, i < B -> j < N -> elem mask [i; j] <> 0%R ->
     MaskedLoss.per_element k (elem y_hat [i; j]) (elem y [i; j]) = e) ->
  Transformer.loss m y_hat y mask seq_lengths dev false loss_type =
    Ok (Rsum B (fun i =>
          Rsum N (fun j =>
            if Torch.Reqb (elem mask [i; j]) 0 then 0%R
            else MaskedLoss.per_element k (elem y_hat [i; j])
                   (elem y [i; j]))
          / elem seq_lengths [i]) / INR B)%R /\
  Transformer.loss m y_hat y mask seq_lengths dev false loss_type = Ok e.
Proof.
  intros Hm Hkind Hyh Hy Hmask Hlen HB Hvalid Herr.
  assert (Hloss :
    Transformer.loss m y_hat y mask seq_lengths dev false loss_type =
      Ok (Rsum B (fun i =>
            Rsum N (fun j =>
              if Torch.Reqb (elem mask [i; j]) 0 then 0%R
              else MaskedLoss.per_element k (elem y_hat [i; j])
                     (elem y [i; j]))
            / elem seq_lengths [i]) / INR B)%R).
  { invert_init Hm enc Henc. unfold Transformer.loss.
    cbn [Transformer.msle_loss Transformer.mse_loss].
    destruct Hkind as [[-> ->]|[-> ->]]; cbn [String.eqb Ascii.eqb Bool.eqb];
      unfold MaskedLoss.forward; rewrite Hyh, Hy, Hlen;
      unfold to_bool; cbn [shape Torch.map_t]; rewrite Hmask;
      rewrite !same_shape_refl; cbn [andb elem];
      do 2 f_equal; apply Rsum_ext; intros i _; f_equal;
      apply Rsum_ext; intros j _; cbn [elem Torch.map_t];
      destruct (Torch.Reqb (elem mask [i; j]) 0); reflexivity. }
  split; [exact Hloss|]. rewrite Hloss. f_equal.
  rewrite (Rsum_ext B _ (fun _ => e)).
  - rewrite Rsum_const. field. apply not_0_INR. lia.
  - intros i Hi. destruct (Hvalid i Hi) as [Hpos Hcount].
    rewrite (Rsum_ext N _
               (fun j => e * (if Torch.Reqb (elem mask [i; j]) 0
                              then 0 else 1))%R).
    + rewrite Rsum_scal, Hcount. field. lra.
    + intros j Hj. unfold Torch.Reqb.
      destruct (Req_dec_T (elem mask [i; j]) 0) as [Hz|Hnz]; [lra|].
      rewrite (Herr i j Hi Hj Hnz). lra.
Qed.

Lemma per_sequence_mean_loss_witness :
  exists m,
    Transformer.__init__ zero_params (example_config "default" false) 3 5 4
      = Ok m /\
    Transformer.loss m (Torch.full [2; 10] 3%R) (Torch.ones [2; 10])
      ragged_mask ragged_lengths cpu false "mse" = Ok 4%R.
Proof.
  eexists. split; [reflexivity|].
  refine (proj2 (per_sequence_mean_loss zero_params
                   (example_config "default" false) 3 5 4 _
                   "mse" MaskedLoss.MSE (Torch.full [2; 10] 3%R)
                   (Torch.ones [2; 10]) ragged_mask ragged_lengths
                   cpu 2 10 4 eq_refl
                   (or_introl (conj eq_refl eq_refl))
                   eq_refl eq_refl eq_refl eq_refl _ _ _)).
  - lia.
  - intros i Hi. unfold ragged_mask, ragged_lengths, Rsum.
    destruct i as [|[|i]]; [| |lia]; simpl;
      rewrite ?Reqb_refl, ?(Reqb_neq 1 0) by lra; split; lra.
  - intros i j _ _ _. simpl. lra.
Defined.

(** ** Shapes through the forward call *)

Lemma conv1d_forward_ok (m : Conv1d.t) (x : tensor R) (b c l : nat) :
  shape x = [b; c; l] -> c = Conv1d.in_channels m ->
  exists y, Conv1d.forward m x = Ok y /\
            shape y = [b; Conv1d.out_channels m; l].
Proof.
  intros Hx ->. unfold Conv1d.forward. rewrite Hx, Nat.eqb_refl.
  eexists. split; reflexivity.
Qed.

Lemma conv1d_forward_mismatch (m : Conv1d.t) (x : tensor R) (b c l : nat) :
  shape x = [b; c; l] -> c <> Conv1d.in_channels m ->
  Conv1d.forward m x = Err RuntimeError.
Proof.
  intros Hx Hc. unfold Conv1d.forward. rewrite Hx.
  apply Nat.eqb_neq in Hc. now rewrite Hc.
Qed.

Lemma permute_rank3 {A : Type} (dims : list nat) (x : tensor A)
    (a b c : nat) :
  shape x = [a; b; c] -> Torch.is_perm dims 3 = true ->
  exists y, Torch.permute dims x = Ok y /\
            shape y = map (fun d => nth d [a; b; c] 0) dims.
Proof.
  intros Hx Hp. unfold Torch.permute. rewrite Hx. cbn [length]. rewrite Hp.
  eexists. split; reflexivity.
Qed.

Lemma nn_encoder_forward_ok (m : NNTransformerEncoder.t) (src : tensor R)
    (mask : tensor xreal) (l b e : nat) :
  shape src = [l; b; e] -> shape mask = [l; l] ->
  e = TransformerEncoderLayer.d_model (NNTransformerEncoder.encoder_layer m) ->
  exists y, NNTransformerEncoder.forward m src mask = Ok y /\
            shape y = [l; b; e].
Proof.
  intros Hsrc Hmask He. unfold NNTransformerEncoder.forward.
  destruct (NNTransformerEncoder.num_layers m =? 0).
  - exists src. split; [reflexivity|exact Hsrc].
  - rewrite Hsrc, Hmask, <- He, !Nat.eqb_refl. cbn [andb].
    eexists. split; reflexivity.
Qed.

Lemma encoder_layer_width (d_model nhead ff : nat) (dropout : Q)
    (layer : TransformerEncoderLayer.t) :
  TransformerEncoderLayer.__init__ d_model nhead ff dropout = Ok layer ->
  TransformerEncoderLayer.d_model layer = d_model.
Proof.
  unfold TransformerEncoderLayer.__init__.
  destruct (0 <? nhead); [|discriminate].
  destruct (d_model mod nhead =? 0); [|discriminate].
  destruct (Dropout.__init__ dropout); [|discriminate].
  cbn [bind]. intros H. injection H as <-. reflexivity.
Qed.

Lemma encoder_forward_ok (init : TransformerEncoder.params)
    (input_size d_model num_layers num_heads feedforward_size : nat)
    (dropout : Q) (enc : TransformerEncoder.t) (X : tensor R) (B T : nat) :
  TransformerEncoder.__init__ init input_size d_model num_layers num_heads
    feedforward_size dropout = Ok enc ->
  shape X = [B; input_size; T] ->
  T <= PositionalEncoding.default_max_len ->
  exists Y, TransformerEncoder.forward enc X T = Ok Y /\
            shape Y = [B; d_model; T].
Proof.
  intros Henc HX HT.
  destruct (encoder_init_inv _ _ _ _ _ _ _ _ Henc)
    as (table & layer & Htable & Hlayer & ->).
  apply positional_init_inv in Htable. destruct Htable as (_ & _ & Hs & _).
  apply encoder_layer_width in Hlayer.
  unfold TransformerEncoder.forward.
  cbn [TransformerEncoder.input_embedding TransformerEncoder.pos_encoder
       TransformerEncoder.d_model TransformerEncoder.transformer_encoder].
  destruct (conv1d_forward_ok
              (Conv1d.Make input_size d_model
                 (TransformerEncoder.embedding_weight init)
                 (TransformerEncoder.embedding_bias init))
              X B input_size T HX eq_refl) as (X1 & -> & HX1).
  cbn [bind Conv1d.out_channels] in *.
  destruct (positional_forward_ok table
              (Torch.scale (sqrt (INR d_model)) X1) B d_model _ T Hs HX1 HT)
    as (X2 & -> & HX2 & _).
  cbn [bind].
  destruct (permute_rank3 [2; 0; 1] X2 B d_model T HX2 eq_refl)
    as (src & -> & Hsrc).
  cbn [bind map nth] in *.
  destruct (causal_mask_entries T) as (mask & -> & Hmask & _).
  cbn [bind].
  destruct (nn_encoder_forward_ok
              (NNTransformerEncoder.Make layer num_layers
                 (TransformerEncoder.encoder_run init))
              src mask T B d_model Hsrc Hmask (eq_sym Hlayer))
    as (X3 & -> & HX3).
  cbn [bind].
  destruct (permute_rank3 [1; 2; 0] X3 T B d_model HX3 eq_refl)
    as (Y & -> & HY).
  exists Y. split; [reflexivity|exact HY].
Qed.

Lemma encoder_forward_channels (init : TransformerEncoder.params)
    (input_size d_model num_layers num_heads feedforward_size : nat)
    (dropout : Q) (enc : TransformerEncoder.t) (X : tensor R)
    (B C T Tmask : nat) :
  TransformerEncoder.__init__ init input_size d_model num_layers num_heads
    feedforward_size dropout = Ok enc ->
  shape X = [B; C; T] -> C <> input_size ->
  TransformerEncoder.forward enc X Tmask = Err RuntimeError.
Proof.
  intros Henc HX HC.
  destruct (encoder_init_inv _ _ _ _ _ _ _ _ Henc)
    as (table & layer & _ & _ & ->).
  unfold TransformerEncoder.forward.
  cbn [TransformerEncoder.input_embedding].
  rewrite (conv1d_forward_mismatch _ X B C T HX); [reflexivity|exact HC].
Qed.

Lemma linear_forward_2d (m : Linear.t) (x : tensor R) (n k : nat) :
  shape x = [n; k] -> k = Linear.in_features m ->
  exists y, Linear.forward m x = Ok y /\
            shape y = [n; Linear.out_features m].
Proof.
  intros Hx ->. unfold Linear.forward. rewrite Hx. cbn [rev app].
  rewrite Nat.eqb_refl. eexists. split; reflexivity.
Qed.

Lemma norm_forward_2d (m : Norm.t)
    (fn : tensor R -> result (list nat -> R)) (x : tensor R) (n c : nat) :
  shape x = [n; c] -> Norm.accepts m c = true -> is_ok (fn x) = true ->
  exists y, Norm.forward m fn x = Ok y /\ shape y = [n; c].
Proof.
  intros Hx Hc Hfn. unfold Norm.forward.
  destruct (fn x) as [values|]; [|discriminate].
  destruct m as [k mom|k|]; cbn [Norm.accepts] in Hc;
    rewrite ?Hx, ?Hc; cbn [bind]; eexists;
    (split; [reflexivity|first [assumption|reflexivity]]).
Qed.

Lemma dropout_shape (m : Dropout.t) (training : bool)
    (keep : list nat -> bool) (x : tensor R) :
  shape (Dropout.forward m training keep x) = shape x.
Proof. unfold Dropout.forward. destruct training; reflexivity. Qed.

Lemma repeat_interleave_ok {A : Type} (r : Z) (x : tensor A) (n : nat)
    (s : list nat) :
  shape x = n :: s -> (0 <= r)%Z ->
  exists y, Torch.repeat_interleave r x = Ok y /\
            shape y = n * Z.to_nat r :: s.
Proof.
  intros Hx Hr. unfold Torch.repeat_interleave. rewrite Hx.
  apply Z.leb_le in Hr. rewrite Hr, orb_true_r. eexists. split; reflexivity.
Qed.

Lemma repeat_interleave_negative {A : Type} (r : Z) (x : tensor A)
    (n : nat) (s : list nat) :
  shape x = n :: s -> 1 <= n -> (r < 0)%Z ->
  Torch.repeat_interleave r x = Err RuntimeError.
Proof.
  intros Hx Hn Hr. unfold Torch.repeat_interleave. rewrite Hx.
  replace (0 <=? r)%Z with false by (symmetry; apply Z.leb_gt; exact Hr).
  replace (n =? 0) with false by (symmetry; apply Nat.eqb_neq; lia).
  reflexivity.
Qed.

Lemma infer_size_rows (z : Z) (n d : nat) :
  z = Z.of_nat n -> 0 < n ->
  Torch.infer_size [z; (-1)%Z] (n * d) = Ok [n; d].
Proof.
  intros -> Hn. unfold Torch.infer_size.
  cbn [forallb filter existsb map length].
  replace (-1 <=? Z.of_nat n)%Z with true by (symmetry; apply Z.leb_le; lia).
  replace (-1 =? Z.of_nat n)%Z with false by (symmetry; apply Z.eqb_neq; lia).
  replace (Z.of_nat n =? -1)%Z with false by (symmetry; apply Z.eqb_neq; lia).
  change (-1 =? -1)%Z with true. change (-1 <=? -1)%Z with true.
  cbn [andb orb negb filter existsb map length numel_of fold_right].
  rewrite Nat2Z.id, Nat.mul_1_r.
  replace ((n * d) mod n) with 0
    by (rewrite Nat.mul_comm; symmetry; apply Nat.Div0.mod_mul).
  replace (0 <? n) with true by (symmetry; apply Nat.ltb_lt; exact Hn).
  replace (n =? 0) with false by (symmetry; apply Nat.eqb_neq; lia).
  change (1 <=? 1) with true.
  cbn [andb orb negb Nat.eqb]. rewrite orb_true_r.
  replace (n * d / n) with d
    by (rewrite Nat.mul_comm; symmetry; apply Nat.div_mul; lia).
  reflexivity.
Qed.

(** Of an empty tensor no view with rows [z <= 0] and an inferred second
    size exists: [z] is an invalid size, a second [-1], or 0 and
    ambiguous. *)
Lemma infer_size_no_rows (z : Z) :
  (z <= 0)%Z -> Torch.infer_size [z; (-1)%Z] 0 = Err RuntimeError.
Proof.
  intros Hz. unfold Torch.infer_size.
  cbn [forallb filter existsb map length].
  destruct (Z.leb_spec (-1) z) as [Hge|Hlt]; [|reflexivity].
  change (-1 <=? -1)%Z with true. change (-1 =? -1)%Z with true.
  cbn [andb orb].
  destruct (Z.eqb_spec (-1) z) as [<-|Hne]; [reflexivity|].
  assert (z = 0%Z) as -> by lia. reflexivity.
Qed.

Lemma infer_size_exact (a b : nat) :
  Torch.infer_size [Z.of_nat a; Z.of_nat b] (a * b) = Ok [a; b].
Proof.
  unfold Torch.infer_size. cbn [forallb filter existsb map length].
  replace (-1 <=? Z.of_nat a)%Z with true by (symmetry; apply Z.leb_le; lia).
  replace (-1 <=? Z.of_nat b)%Z with true by (symmetry; apply Z.leb_le; lia).
  replace (-1 =? Z.of_nat a)%Z with false by (symmetry; apply Z.eqb_neq; lia).
  replace (-1 =? Z.of_nat b)%Z with false by (symmetry; apply Z.eqb_neq; lia).
  replace (Z.of_nat a =? -1)%Z with false by (symmetry; apply Z.eqb_neq; lia).
  replace (Z.of_nat b =? -1)%Z with false by (symmetry; apply Z.eqb_neq; lia).
  cbn [andb orb negb filter existsb map length numel_of fold_right].
  rewrite !Nat2Z.id, Nat.mul_1_r, Nat.eqb_refl. reflexivity.
Qed.

Lemma slice_shape {A : Type} (dim start : nat) (stop : option nat)
    (x : tensor A) :
  dim < length (shape x) ->
  exists y,
    Torch.slice dim start stop x = Ok y /\
    shape y =
      Torch.set_nth dim
        (match stop with
         | Some k => Nat.min k (nth dim (shape x) 0)
         | None => nth dim (shape x) 0
         end - Nat.min start (nth dim (shape x) 0))
        (shape x).
Proof.
  intros Hdim. unfold Torch.slice.
  apply Nat.ltb_lt in Hdim. rewrite Hdim.
  eexists. split; reflexivity.
Qed.

Lemma trim_shape (x : tensor R) (B d T : nat) :
  shape x = [B; d; T] ->
  exists p,
    (s0 <- Torch.slice 0 0 None x ;;
     s1 <- Torch.slice 1 0 None s0 ;;
     s2 <- Torch.slice 2 5 None s1 ;;
     Torch.permute [0; 2; 1] s2) = Ok p /\
    shape p = [B; T - Nat.min 5 T; d].
Proof.
  intros Hx.
  destruct (slice_shape 0 0 None x) as (s0 & -> & H0);
    [rewrite Hx; simpl; lia|].
  rewrite Hx in H0. unfold Torch.set_nth in H0. simpl in H0.
  rewrite Nat.min_0_l, Nat.sub_0_r in H0. cbn [bind].
  destruct (slice_shape 1 0 None s0) as (s1 & -> & H1);
    [rewrite H0; simpl; lia|].
  rewrite H0 in H1. unfold Torch.set_nth in H1. simpl in H1.
  rewrite Nat.min_0_l, Nat.sub_0_r in H1. cbn [bind].
  destruct (slice_shape 2 5 None s1) as (s2 & -> & H2);
    [rewrite H1; simpl; lia|].
  rewrite H1 in H2. unfold Torch.set_nth in H2. simpl in H2. cbn [bind].
  destruct (permute_rank3 [0; 2; 1] s2 _ _ _ H2 eq_refl) as (p & -> & Hp).
  exists p. split; [reflexivity|exact Hp].
Qed.

Lemma trim_ok (x : tensor R) (B d T : nat) :
  shape x = [B; d; T] -> 5 < T -> 1 <= B ->
  exists y,
    (s0 <- Torch.slice 0 0 None x ;;
     s1 <- Torch.slice 1 0 None s0 ;;
     s2 <- Torch.slice 2 5 None s1 ;;
     p <- Torch.permute [0; 2; 1] s2 ;;
     Torch.view [Z.of_nat B * (Z.of_nat T - 5); -1]%Z p) = Ok y /\
    shape y = [B * (T - 5); d].
Proof.
  intros Hx HT HB.
  destruct (trim_shape x B d T Hx) as (p & Hp & Hs).
  assert (Hstep :
    (s0 <- Torch.slice 0 0 None x ;;
     s1 <- Torch.slice 1 0 None s0 ;;
     s2 <- Torch.slice 2 5 None s1 ;;
     p <- Torch.permute [0; 2; 1] s2 ;;
     Torch.view [Z.of_nat B * (Z.of_nat T - 5); -1]%Z p) =
    Torch.view [Z.of_nat B * (Z.of_nat T - 5); -1]%Z p).
  { revert Hp.
    destruct (Torch.slice 0 0 None x) as [s0|]; cbn [bind]; [|discriminate].
    destruct (Torch.slice 1 0 None s0) as [s1|]; cbn [bind]; [|discriminate].
    destruct (Torch.slice 2 5 None s1) as [s2|]; cbn [bind]; [|discriminate].
    intros ->. reflexivity. }
  rewrite Hstep. unfold Torch.view. rewrite Hs.
  rewrite (Nat.min_l 5 T) by lia.
  replace (numel_of [B; T - 5; d]) with (B * (T - 5) * d)
    by (unfold numel_of; simpl; ring).
  rewrite (infer_size_rows _ (B * (T - 5)) d); [|nia|nia].
  eexists. split; reflexivity.
Qed.

Lemma trim_empty (x : tensor R) (B d T : nat) :
  shape x = [B; d; T] -> T <= 5 ->
  (s0 <- Torch.slice 0 0 None x ;;
   s1 <- Torch.slice 1 0 None s0 ;;
   s2 <- Torch.slice 2 5 None s1 ;;
   p <- Torch.permute [0; 2; 1] s2 ;;
   Torch.view [Z.of_nat B * (Z.of_nat T - 5); -1]%Z p) = Err RuntimeError.
Proof.
  intros Hx HT.
  destruct (trim_shape x B d T Hx) as (p & Hp & Hs).
  revert Hp.
  destruct (Torch.slice 0 0 None x) as [s0|]; cbn [bind]; [|discriminate].
  destruct (Torch.slice 1 0 None s0) as [s1|]; cbn [bind]; [|discriminate].
  destruct (Torch.slice 2 5 None s1) as [s2|]; cbn [bind]; [|discriminate].
  intros ->. cbn [bind]. unfold Torch.view. rewrite Hs.
  replace (numel_of [B; T - Nat.min 5 T; d]) with 0
    by (unfold numel_of; simpl; nia).
  rewrite infer_size_no_rows; [reflexivity|nia].
Qed.

Lemma same_except_cols (n a b : nat) :
  Torch.same_except 1 [n; a] [n; b] = true.
Proof.
  unfold Torch.same_except. simpl. now rewrite Nat.eqb_refl.
Qed.

Lemma cat_columns {A : Type} (x y z : tensor A) (n a b c : nat) :
  shape x = [n; a] -> shape y = [n; b] -> shape z = [n; c] ->
  exists w, Torch.cat x [y; z] 1 = Ok w /\ shape w = [n; a + (b + (c + 0))].
Proof.
  intros Hx Hy Hz. unfold Torch.cat. rewrite Hx.
  cbn [length forallb]. rewrite Hy, Hz, !same_except_cols.
  change (1 <? 2) with true. cbn [andb].
  eexists. split; [reflexivity|].
  cbn [shape fold_right]. rewrite Hx, Hy, Hz. reflexivity.
Qed.

Lemma view_batch (x : tensor R) (B T : nat) :
  shape x = [B * (T - 5); 1] -> 5 <= T ->
  exists y, Torch.view [Z.of_nat B; Z.of_nat T - 5]%Z x = Ok y /\
            shape y = [B; T - 5].
Proof.
  intros Hx HT. unfold Torch.view. rewrite Hx.
  replace (Z.of_nat T - 5)%Z with (Z.of_nat (T - 5)) by lia.
  replace (numel_of [B * (T - 5); 1]) with (B * (T - 5))
    by (unfold numel_of; simpl; ring).
  rewrite infer_size_exact. eexists. split; reflexivity.
Qed.

Lemma norm_stage_accepts (custom standard : bool) (size : nat) (mom : R) :
  Norm.accepts
    (if custom then Norm.MyBatchNorm1d size mom
     else if standard then Norm.BatchNorm1d size
     else Norm.EmptyModule) size = true.
Proof.
  destruct custom; [apply Nat.eqb_refl|].
  destruct standard; [apply Nat.eqb_refl|reflexivity].
Qed.

Lemma raw_scores_ok (init : Transformer.params) (config : Config.t)
    (F D S : nat) (m : Transformer.t) (md : Transformer.mode)
    (X diagnoses flat : tensor R) (B T : nat) :
  Transformer.__init__ init config F D S = Ok m ->
  shape X = [B; 2 * F + 2; T] ->
  shape diagnoses = [B; D] -> shape flat = [B; S] ->
  1 <= B -> 5 < T -> T <= PositionalEncoding.default_max_len ->
  (forall x, shape x = [B; Config.diagnosis_size config] ->
             is_ok (Transformer.norm_diagnosis init x) = true) ->
  (forall x, shape x = [B * (T - 5); Config.last_linear_size config] ->
             is_ok (Transformer.norm_point init x) = true) ->
  exists raw,
    Transformer.raw_scores m md X diagnoses flat = Ok raw /\
    shape raw = [B; T - 5].
Proof.
  intros Hm HX Hdiag Hflat HB HT5 HTmax Hnd Hnp. invert_init Hm enc Henc.
  unfold Transformer.raw_scores. rewrite HX.
  cbn [Transformer.transformer Transformer.trans_dropout
       Transformer.diagnosis_encoder Transformer.bn_diagnosis_encoder
       Transformer.bn_diagnosis_fn Transformer.main_dropout
       Transformer.point Transformer.bn_point_last Transformer.bn_point_fn
       Transformer.point_final].
  destruct (encoder_forward_ok _ _ _ _ _ _ _ _ X B T Henc HX HTmax)
    as (trans_output & -> & Htrans). cbn [bind].
  destruct (linear_forward_2d
              (Linear.Make D (Config.diagnosis_size config)
                 (Transformer.diagnosis_weight init)
                 (Transformer.diagnosis_bias init))
              diagnoses B D Hdiag eq_refl) as (encoded & -> & Henc1).
  cbn [bind Linear.out_features] in *.
  match goal with
  | |- context [Norm.forward ?n ?f encoded] =>
      destruct (norm_forward_2d n f encoded B _ Henc1)
        as (normed & -> & Hnormed);
      [apply norm_stage_accepts|apply Hnd; exact Henc1|]
  end.
  cbn [bind].
  destruct (repeat_interleave_ok (Z.of_nat T - 5) flat B [S] Hflat)
    as (flat_rep & -> & Hflat_rep); [lia|]. cbn [bind].
  match goal with
  | |- context [Torch.repeat_interleave _ ?x] =>
      destruct (repeat_interleave_ok (Z.of_nat T - 5) x B
                  [Config.diagnosis_size config])
        as (diag_rep & -> & Hdiag_rep);
      [cbn [Torch.relu Torch.map_t shape]; rewrite dropout_shape;
       exact Hnormed | lia |]
  end.
  cbn [bind].
  replace (Z.to_nat (Z.of_nat T - 5)) with (T - 5) in * by lia.
  match goal with
  | |- context [Torch.slice 0 0 None ?x] =>
      destruct (trim_ok x B (Config.d_model config) T)
        as (trimmed & -> & Htrimmed);
      [cbn [Torch.relu Torch.map_t shape]; rewrite dropout_shape;
       exact Htrans | exact HT5 | exact HB |]
  end.
  cbn [bind].
  destruct (cat_columns flat_rep diag_rep trimmed _ _ _ _
              Hflat_rep Hdiag_rep Htrimmed) as (combined & -> & Hcombined).
  cbn [bind].
  destruct (linear_forward_2d
              (Linear.Make
                 (Config.d_model config + Config.diagnosis_size config + S)
                 (Config.last_linear_size config)
                 (Transformer.point_weight init)
                 (Transformer.point_bias init))
              combined _ _ Hcombined) as (projected & -> & Hprojected);
    [cbn [Linear.in_features]; lia|].
  cbn [bind Linear.out_features] in *.
  match goal with
  | |- context [Norm.forward ?n ?f projected] =>
      destruct (norm_forward_2d n f projected _ _ Hprojected)
        as (normed2 & -> & Hnormed2);
      [apply norm_stage_accepts|apply Hnp; exact Hprojected|]
  end.
  cbn [bind].
  match goal with
  | |- context [Linear.forward ?l ?x] =>
      destruct (linear_forward_2d l x (B * (T - 5))
                  (Config.last_linear_size config))
        as (scores & -> & Hscores);
      [cbn [Torch.relu Torch.map_t shape]; rewrite dropout_shape;
       exact Hnormed2 | reflexivity |]
  end.
  cbn [bind Linear.out_features] in *.
  apply view_batch; [exact Hscores|lia].
Qed.




(** ** Short sequences *)

Lemma raises_bind {A B : Type} (r : result A) (k : A -> result B) :
  raises r -> raises (bind r k).
Proof. intros [e ->]. exists e. reflexivity. Qed.

Lemma raises_err {A : Type} (e : error) : raises (@Err A e).
Proof. exists e. reflexivity. Qed.

Lemma raw_scores_short (init : Transformer.params) (config : Config.t)
    (F D S : nat) (m : Transformer.t) (md : Transformer.mode)
    (X diagnoses flat : tensor R) (B C T : nat) :
  Transformer.__init__ init config F D S = Ok m ->
  shape X = [B; C; T] -> T <= 5 ->
  raises (Transformer.raw_scores m md X diagnoses flat).
Proof.
  intros Hm HX HT. invert_init Hm enc Henc.
  unfold Transformer.raw_scores. rewrite HX.
  cbn [Transformer.transformer Transformer.trans_dropout
       Transformer.diagnosis_encoder Transformer.bn_diagnosis_encoder
       Transformer.bn_diagnosis_fn Transformer.main_dropout
       Transformer.point Transformer.bn_point_last Transformer.bn_point_fn
       Transformer.point_final].
  destruct (Nat.eq_dec C (2 * F + 2)) as [->|HC].
  2:{ rewrite (encoder_forward_channels _ _ _ _ _ _ _ _ X B C T T Henc HX HC).
      apply raises_err. }
  destruct (encoder_forward_ok _ _ _ _ _ _ _ _ X B T Henc HX)
    as (trans_output & -> & Htrans).
  { unfold PositionalEncoding.default_max_len. simpl. lia. }
  cbn [bind].
  destruct (Linear.forward _ diagnoses) as [encoded|]; cbn [bind];
    [|apply raises_err].
  destruct (Norm.forward _ _ encoded) as [normed|]; cbn [bind];
    [|apply raises_err].
  destruct (Torch.repeat_interleave _ flat) as [flat_rep|]; cbn [bind];
    [|apply raises_err].
  destruct (Torch.repeat_interleave _ _) as [diag_rep|]; cbn [bind];
    [|apply raises_err].
  match goal with
  | |- context [Torch.slice 0 0 None ?x] =>
      rewrite (trim_empty x B (Config.d_model config) T)
  end.
  - apply raises_err.
  - cbn [Torch.relu Torch.map_t shape]. rewrite dropout_shape.
    exact Htrans.
  - exact HT.
Qed.

(** C10 (amended). The forward call of a model that was built returns a
    prediction only when T >= 6.  For T < 5 it raises (the repeat count
    T - 5 is negative), and for T = 5 it raises as well: the trimmed encoder
    output is empty, and its [view(B * 0, -1)] is refused because the
    inferred size is ambiguous. *)
Theorem forward_needs_six_timesteps (init : Transformer.params)
    (config : Config.t) (F D S : nat) (m : Transformer.t)
    (md : Transformer.mode) (X diagnoses flat : tensor R) (B C T : nat) :
  Transformer.__init__ init config F D S = Ok m ->
  shape X = [B; C; T] ->
  (T <= 5 -> raises (Transformer.forward m md X diagnoses flat)) /\
  (T < 5 -> 1 <= B -> shape flat = [B; S] ->
   Torch.repeat_interleave (Z.of_nat T - 5) flat = Err RuntimeError) /\
  (forall P, Transformer.forward m md X diagnoses flat = Ok P -> 6 <= T).
Proof.
  intros Hm HX.
  assert (Hshort : T <= 5 ->
            raises (Transformer.forward m md X diagnoses flat)).
  { intros HT. rewrite forward_as_transform. apply raises_bind.
    exact (raw_scores_short init config F D S m md X diagnoses flat B C T
             Hm HX HT). }
  split; [exact Hshort|]. split.
  { intros HT HB Hflat.
    apply (repeat_interleave_negative _ flat B [S] Hflat HB). lia. }
  intros P HP. destruct (Nat.le_gt_cases T 5) as [HT|HT]; [|lia].
  destruct (Hshort HT) as [e He]. congruence.
Qed.

Lemma forward_needs_six_timesteps_witness :
  exists m,
    Transformer.__init__ zero_params (example_config "mybatchnorm" false)
      3 5 4 = Ok m /\
    raises (Transformer.forward m eval_mode (example_X 2 5)
              (example_diagnoses 2) (example_flat 2)) /\
    raises (Transformer.forward m eval_mode (example_X 2 3)
              (example_diagnoses 2) (example_flat 2)).
Proof.
  eexists. split; [reflexivity|]. split.
  - apply (proj1 (forward_needs_six_timesteps zero_params
                    (example_config "mybatchnorm" false) 3 5 4 _ eval_mode
                    (example_X 2 5) (example_diagnoses 2) (example_flat 2)
                    2 8 5 eq_refl eq_refl)).
    apply le_n.
  - apply (proj1 (forward_needs_six_timesteps zero_params
                    (example_config "mybatchnorm" false) 3 5 4 _ eval_mode
                    (example_X 2 3) (example_diagnoses 2) (example_flat 2)
                    2 8 3 eq_refl eq_refl)).
    repeat constructor.
Defined.

(** An empty batch is refused as well, whatever its length: B * (T - 5)
    is 0 and the size to infer ambiguous. *)
Lemma forward_rejects_empty_batch :
  exists m,
    Transformer.__init__ zero_params (example_config "mybatchnorm" false)
      3 5 4 = Ok m /\
    Transformer.forward m eval_mode (example_X 0 7) (example_diagnoses 0)
      (example_flat 0) = Err RuntimeError.
Proof. eexists. split; [reflexivity|]. lazy. reflexivity. Qed.

(** The claim as stated fails at T = 5: no empty B x 0 tensor is returned,
    the call raises. *)
Lemma forward_raises_at_five :
  exists m,
    Transformer.__init__ zero_params (example_config "mybatchnorm" false)
      3 5 4 = Ok m /\
    shape (example_X 2 5) = [2; 2 * 3 + 2; 5] /\
    Transformer.forward m eval_mode (example_X 2 5) (example_diagnoses 2)
      (example_flat 2) = Err RuntimeError.
Proof.
  eexists. split; [reflexivity|]. split; [reflexivity|]. lazy. reflexivity.
Qed.

(** * Further properties *)

(** ** Attention under the causal mask *)

Lemma Rsum_first (n : nat) (f : nat -> R) :
  0 < n -> (forall k, 0 < k -> k < n -> f k = 0%R) -> Rsum n f = f 0.
Proof.
  induction n as [|n IH]; intros Hn Hz; [lia|].
  rewrite Rsum_S. destruct n as [|n].
  - unfold Rsum. simpl. lra.
  - rewrite IH, (Hz (S n)) by (try lia; intros; apply Hz; lia). lra.
Qed.

(** X1. Under the causal mask the attention probabilities of query i are
    computed from the scores of the keys 0..i alone: two score matrices that
    agree there give the same probabilities in row i, whatever the scores of
    later keys are; and the first query gives probability 1 to itself. *)
Theorem attention_ignores_future_scores (T i : nat)
    (scores scores' : tensor R) :
  shape scores = [T; T] -> shape scores' = [T; T] -> i < T ->
  (forall j, j <= i -> elem scores [i; j] = elem scores' [i; j]) ->
  exists mask probs probs',
    TransformerEncoder._causal_mask T = Ok mask /\
    Torch.attention_probs scores mask = Ok probs /\
    Torch.attention_probs scores' mask = Ok probs' /\
    (forall j, j < T -> elem probs [i; j] = elem probs' [i; j]) /\
    (i = 0 -> elem probs [0; 0] = 1%R).
Proof.
  intros Hs Hs' Hi Hagree.
  destruct (causal_mask_entries T) as (mask & Hm & Hsm & He).
  exists mask. unfold Torch.attention_probs. rewrite Hs, Hs', Hsm.
  rewrite !Nat.eqb_refl. cbn [andb].
  eexists. eexists. split; [exact Hm|]. split; [reflexivity|].
  split; [reflexivity|].
  assert (Hterm : forall j, j < T ->
            xexp (xadd (Fin (elem scores [i; j])) (elem mask [i; j])) =
            xexp (xadd (Fin (elem scores' [i; j])) (elem mask [i; j]))).
  { intros j Hj. rewrite (He i j Hi Hj).
    destruct (Nat.leb_spec j i) as [Hle|Hgt]; [|reflexivity].
    now rewrite (Hagree j Hle). }
  split.
  - intros j Hj. cbn [elem nth]. rewrite (Hterm j Hj). f_equal.
    apply Rsum_ext. exact Hterm.
  - intros ->. cbn [elem nth].
    rewrite (Rsum_first T); [| exact Hi |].
    + apply Rdiv_diag. rewrite (He 0 0 Hi Hi). cbn.
      apply Rgt_not_eq, exp_pos.
    + intros k Hk HkT. rewrite (He 0 k Hi HkT).
      destruct (Nat.leb_spec k 0); [lia|reflexivity].
Qed.

Lemma attention_ignores_future_scores_witness :
  exists mask probs probs',
    TransformerEncoder._causal_mask 3 = Ok mask /\
    Torch.attention_probs (Torch.zeros [3; 3]) mask = Ok probs /\
    Torch.attention_probs (future_scores 3) mask = Ok probs' /\
    elem probs [1; 2] = elem probs' [1; 2] /\
    elem probs [1; 0] = elem probs' [1; 0].
Proof.
  destruct (attention_ignores_future_scores 3 1 (Torch.zeros [3; 3])
              (future_scores 3) eq_refl eq_refl)
    as (mask & probs & probs' & Hm & Hp & Hp' & Hrow & _).
  - repeat constructor.
  - intros j Hj. unfold future_scores. cbn [elem Torch.zeros Torch.full nth].
    destruct (Nat.ltb_spec 1 j); [lia|reflexivity].
  - exists mask, probs, probs'. repeat split; try assumption;
      apply Hrow; repeat constructor.
Defined.

(** ** The tuple filter *)

(** X2. [remove_none] keeps exactly the entries that are not [None], in
    their order and with their multiplicity: it distributes over
    concatenation, undoes the wrapping of a tuple without [None], and never
    returns more entries than it was given. *)
Theorem remove_none_keeps_present {A : Type} (x y : list (option A))
    (l : list A) (a : A) :
  remove_none (x ++ y) = remove_none x ++ remove_none y /\
  remove_none (map Some l) = l /\
  map Some (remove_none x) = filter (fun xi => match xi with
                                               | Some _ => true
                                               | None => false
                                               end) x /\
  (In a (remove_none x) <-> In (Some a) x) /\
  length (remove_none x) <= length x.
Proof.
  split; [|split; [|split; [|split]]].
  - induction x as [|[xi|] x IH]; simpl; congruence.
  - induction l as [|b l IH]; simpl; congruence.
  - induction x as [|[xi|] x IH]; simpl; congruence.
  - induction x as [|[xi|] x IH]; simpl; [tauto| |].
    + rewrite IH. split; intros [H|H]; auto; left; congruence.
    + rewrite IH. split; [auto|]. intros [H|H]; [discriminate|exact H].
  - induction x as [|[xi|] x IH]; simpl; lia.
Qed.

(** ** The output transform, continued *)





(** ** The positional signal, continued *)



(** X5. Neither the success of the constructor nor any entry of the table
    depends on [max_len]: tables of different capacities agree on the
    positions both hold, and so do the forward calls on every input short
    enough for both. *)
Theorem positional_table_independent_of_capacity (d_model L L' : nat)
    (m : PositionalEncoding.t) :
  PositionalEncoding.__init__ d_model L = Ok m ->
  exists m',
    PositionalEncoding.__init__ d_model L' = Ok m' /\
    (forall pos c, pos < L -> pos < L' -> c < d_model ->
       elem (PositionalEncoding.pe m) [0; c; pos] =
       elem (PositionalEncoding.pe m') [0; c; pos]) /\
    forall X B T, shape X = [B; d_model; T] -> T <= L -> T <= L' ->
      exists Y Y',
        PositionalEncoding.forward m X = Ok Y /\
        PositionalEncoding.forward m' X = Ok Y' /\
        shape Y = shape Y' /\
        forall b c t, b < B -> c < d_model -> t < T ->
          elem Y [b; c; t] = elem Y' [b; c; t].
Proof.
  intros Hm. apply positional_init_inv in Hm.
  destruct Hm as (Hd & Hpar & Hs & He).
  destruct (positional_init_ok d_model L' Hd) as (m' & Hm' & Hs' & He').
  { destruct Hpar as [Hev| ->]; [|reflexivity].
    rewrite (even_half _ Hev), Nat.eqb_refl. reflexivity. }
  exists m'. split; [exact Hm'|]. split.
  - intros pos c Hp Hp' Hc. now rewrite (He pos c Hp Hc), (He' pos c Hp' Hc).
  - intros X B T HX HT HT'.
    destruct (positional_forward_ok m X B d_model L T Hs HX HT)
      as (Y & HY & HsY & HeY).
    destruct (positional_forward_ok m' X B d_model L' T Hs' HX HT')
      as (Y' & HY' & HsY' & HeY').
    exists Y, Y'. repeat split; try assumption; [congruence|].
    intros b c t Hb Hc Ht.
    rewrite (HeY b c t Hb Hc Ht), (HeY' b c t Hb Hc Ht).
    now rewrite (He t c) , (He' t c) by lia.
Qed.

Lemma positional_table_independent_of_capacity_witness :
  exists m m',
    PositionalEncoding.__init__ 4 3 = Ok m /\
    PositionalEncoding.__init__ 4 PositionalEncoding.default_max_len
      = Ok m' /\
    elem (PositionalEncoding.pe m) [0; 1; 2] =
    elem (PositionalEncoding.pe m') [0; 1; 2].
Proof.
  eexists.
  destruct (positional_table_independent_of_capacity 4 3
              PositionalEncoding.default_max_len _ eq_refl)
    as (m' & Hm' & He & _).
  exists m'. split; [reflexivity|]. split; [exact Hm'|].
  apply He; [repeat constructor| |repeat constructor].
  apply Nat.ltb_lt. reflexivity.
Defined.

Lemma broadcast_rank3 (B C T d T' : nat) :
  Torch.broadcast_shapes [B; C; T] [1; d; T'] =
    if ((T =? T') || (T =? 1) || (T' =? 1)) &&
       ((C =? d) || (C =? 1) || (d =? 1))
    then Ok [B; if C =? 1 then d else C;
             if T =? 1 then T' else T]
    else Err RuntimeError.
Proof.
  unfold Torch.broadcast_shapes. cbn [rev app Torch.broadcast_rev bind].
  rewrite Nat.eqb_refl.
  assert (HB : (if B =? 1 then Ok (A:=list nat) [B]
                else if B =? 1 then Ok [1] else Ok [B]) = Ok [B])
    by (destruct (B =? 1); reflexivity).
  rewrite HB. cbn [bind].
  destruct (Nat.eqb_spec C d) as [->|HCd]; cbn [bind orb andb].
  - destruct (Nat.eqb_spec T T') as [->|HT]; cbn [bind orb andb rev app].
    + destruct (Nat.eqb_spec d 1) as [->|]; destruct (Nat.eqb_spec T' 1)
        as [->|]; reflexivity.
    + destruct (Nat.eqb_spec T 1) as [->|]; cbn [bind orb andb rev app].
      * destruct (Nat.eqb_spec d 1) as [->|]; reflexivity.
      * destruct (Nat.eqb_spec T' 1) as [->|]; cbn [bind orb andb rev app];
          [|reflexivity].
        destruct (Nat.eqb_spec d 1) as [->|]; reflexivity.
  - destruct (Nat.eqb_spec C 1) as [->|HC1]; cbn [bind orb andb].
    + destruct (Nat.eqb_spec T T') as [->|HT]; cbn [bind orb andb rev app].
      * destruct (Nat.eqb_spec T' 1) as [->|]; reflexivity.
      * destruct (Nat.eqb_spec T 1) as [->|]; cbn [bind orb andb rev app];
          [reflexivity|].
        destruct (Nat.eqb_spec T' 1) as [->|]; reflexivity.
    + destruct (Nat.eqb_spec d 1) as [->|Hd1]; cbn [bind orb andb];
        [|now rewrite andb_false_r].
      destruct (Nat.eqb_spec T T') as [->|HT]; cbn [bind orb andb rev app].
      * destruct (Nat.eqb_spec T' 1) as [->|]; reflexivity.
      * destruct (Nat.eqb_spec T 1) as [->|]; cbn [bind orb andb rev app];
          [reflexivity|].
        destruct (Nat.eqb_spec T' 1) as [->|]; reflexivity.
Qed.

Lemma positional_forward_shape_of (m : PositionalEncoding.t) (X : tensor R)
    (B C T d L : nat) :
  shape (PositionalEncoding.pe m) = [1; d; L] -> shape X = [B; C; T] ->
  shape_of (PositionalEncoding.forward m X) =
    Torch.broadcast_shapes [B; C; T] [1; d; Nat.min T L].
Proof.
  intros Hpe HX. unfold PositionalEncoding.forward, Torch.slice.
  rewrite HX, Hpe. simpl. unfold Torch.set_nth. simpl.
  rewrite !Nat.min_0_l, !Nat.sub_0_r.
  unfold Torch.add, Torch.broadcast_op. rewrite HX. cbn [shape].
  destruct (Torch.broadcast_shapes _ _) as [s|]; reflexivity.
Qed.

Lemma is_ok_shape_of {A : Type} (r : result (tensor A)) :
  is_ok r = is_ok (shape_of r).
Proof. destruct r; reflexivity. Qed.

Lemma positional_forward_single_channel (m : PositionalEncoding.t)
    (X : tensor R) (B d L T : nat) :
  shape (PositionalEncoding.pe m) = [1; d; L] ->
  shape X = [B; 1; T] -> T <= L ->
  exists Y,
    PositionalEncoding.forward m X = Ok Y /\
    forall b c t, b < B -> c < d -> t < T ->
      elem Y [b; c; t] =
        (elem X [b; 0%nat; t] +
         elem (PositionalEncoding.pe m) [0%nat; c; t])%R.
Proof.
  intros Hpe HX HT. unfold PositionalEncoding.forward, Torch.slice.
  rewrite HX, Hpe. simpl. unfold Torch.set_nth. simpl.
  rewrite !Nat.min_0_l, !Nat.sub_0_r, (Nat.min_l T L HT).
  unfold Torch.add, Torch.broadcast_op. rewrite HX. cbn [shape].
  rewrite broadcast_rank3, !Nat.eqb_refl. cbn [orb andb bind].
  rewrite orb_true_r. cbn [andb].
  eexists. split; [reflexivity|].
  intros b c t Hb Hc Ht. cbn [elem].
  rewrite (bcast_index_batch _ _ b _ _ Hc Ht).
  unfold Torch.bcast_index.
  cbn [length Nat.sub skipn combine map fst snd].
  rewrite Nat.eqb_refl, !stretch_index by assumption. simpl.
  rewrite !Nat.add_0_r. reflexivity.
Qed.

(** X6. For a constructed table of at least two positions and an input of
    shape B x C x T, the forward call returns exactly when T <= max_len and
    the channel counts can be broadcast (C = d_model, or one of them is 1);
    the result then has T timesteps and C channels, or d_model channels when
    C = 1.  The channel count is not checked otherwise: a single input
    channel is silently repeated under every channel of the table.  An input
    of fewer than three dimensions raises IndexError. *)
Theorem positional_forward_accepts (d_model max_len : nat)
    (m : PositionalEncoding.t) (X : tensor R) (B C T : nat) :
  PositionalEncoding.__init__ d_model max_len = Ok m ->
  2 <= max_len -> shape X = [B; C; T] ->
  (is_ok (PositionalEncoding.forward m X) = true <->
   T <= max_len /\ (C = d_model \/ C = 1 \/ d_model = 1)) /\
  (forall Y, PositionalEncoding.forward m X = Ok Y ->
             shape Y = [B; if C =? 1 then d_model else C; T]) /\
  (C = 1 -> T <= max_len ->
   exists Y,
     PositionalEncoding.forward m X = Ok Y /\
     forall b c t, b < B -> c < d_model -> t < T ->
       elem Y [b; c; t] =
         (elem X [b; 0%nat; t] +
          elem (PositionalEncoding.pe m) [0%nat; c; t])%R) /\
  (forall X', length (shape X') < 3 ->
              PositionalEncoding.forward m X' = Err IndexError).
Proof.
  intros Hm HL HX. apply positional_init_inv in Hm.
  destruct Hm as (Hd & _ & Hs & _).
  pose proof (positional_forward_shape_of m X B C T d_model max_len Hs HX)
    as Hshape.
  rewrite broadcast_rank3 in Hshape.
  split; [|split; [|split]].
  - rewrite is_ok_shape_of, Hshape.
    destruct (Nat.le_gt_cases T max_len) as [HT|HT].
    + rewrite (Nat.min_l T max_len HT), Nat.eqb_refl. cbn [orb andb].
      destruct (Nat.eqb_spec C d_model), (Nat.eqb_spec C 1),
        (Nat.eqb_spec d_model 1); cbn [orb is_ok];
        (split; intros H; try discriminate H; try reflexivity;
         try (split; [exact HT|tauto]);
         destruct H as [_ [?|[?|?]]]; congruence).
    + rewrite (Nat.min_r T max_len) by lia.
      replace (T =? max_len) with false by (symmetry; apply Nat.eqb_neq; lia).
      replace (T =? 1) with false by (symmetry; apply Nat.eqb_neq; lia).
      replace (max_len =? 1) with false
        by (symmetry; apply Nat.eqb_neq; lia).
      cbn [orb andb is_ok]. split; [discriminate|lia].
  - intros Y HY. rewrite HY in Hshape. cbn [shape_of] in Hshape.
    destruct (_ && _) eqn:Hcond; [|discriminate].
    injection Hshape as ->. apply andb_true_iff in Hcond.
    destruct Hcond as [HcT HcC]. do 3 f_equal.
    destruct (Nat.eqb_spec T 1) as [->|]; [|reflexivity].
    apply Nat.min_l. lia.
  - intros -> HT.
    exact (positional_forward_single_channel m X B d_model max_len T
             Hs HX HT).
  - intros X' Hrank. unfold PositionalEncoding.forward.
    replace (2 <? length (shape X')) with false
      by (symmetry; apply Nat.ltb_ge; lia).
    reflexivity.
Qed.

Lemma positional_forward_accepts_witness :
  exists m,
    PositionalEncoding.__init__ 4 3 = Ok m /\
    is_ok (PositionalEncoding.forward m (Torch.ones [2; 1; 3])) = true /\
    is_ok (PositionalEncoding.forward m (Torch.ones [2; 3; 3])) = false /\
    PositionalEncoding.forward m (Torch.ones [2; 4]) = Err IndexError.
Proof.
  eexists. split; [reflexivity|].
  destruct (positional_forward_accepts 4 3 _ (Torch.ones [2; 1; 3]) 2 1 3
              eq_refl (le_S _ _ (le_n 2)) eq_refl) as (Hok & _ & _ & Hrank).
  split; [apply Hok; split; [apply le_n|right; left; reflexivity]|].
  split; [reflexivity|].
  apply Hrank. repeat constructor.
Defined.

(** X7. A table built for a single position does not reject longer inputs:
    on every input of shape B x d_model x T with T >= 1 the forward call
    returns, and adds the signal of position 0 to every timestep. *)
Theorem positional_single_position_repeats (d_model : nat)
    (m : PositionalEncoding.t) (X : tensor R) (B T : nat) :
  PositionalEncoding.__init__ d_model 1 = Ok m ->
  shape X = [B; d_model; T] -> 1 <= T ->
  exists Y,
    PositionalEncoding.forward m X = Ok Y /\
    shape Y = [B; d_model; T] /\
    forall b c t, b < B -> c < d_model -> t < T ->
      elem Y [b; c; t] =
        (elem X [b; c; t] +
         elem (PositionalEncoding.pe m) [0%nat; c; 0%nat])%R.
Proof.
  intros Hm HX HT. apply positional_init_inv in Hm.
  destruct Hm as (Hd & _ & Hs & _).
  unfold PositionalEncoding.forward, Torch.slice.
  rewrite HX, Hs. simpl. unfold Torch.set_nth. simpl.
  rewrite !Nat.min_0_l, !Nat.sub_0_r, (Nat.min_r T 1 HT).
  unfold Torch.add, Torch.broadcast_op. rewrite HX. cbn [shape].
  rewrite broadcast_rank3, !Nat.eqb_refl. cbn [orb andb bind].
  rewrite orb_true_r. cbn [andb bind].
  eexists. split; [reflexivity|]. split.
  - cbn [shape]. destruct (Nat.eqb_spec d_model 1) as [->|];
      destruct (Nat.eqb_spec T 1) as [->|]; reflexivity.
  - intros b c t Hb Hc Ht. cbn [elem].
    rewrite (bcast_index_id _ _ (in_range_3 _ _ _ _ _ _ Hb Hc Ht)).
    unfold Torch.bcast_index.
    cbn [length Nat.sub skipn combine map fst snd].
    rewrite Nat.eqb_refl, !stretch_index by assumption. simpl.
    rewrite !Nat.add_0_r. reflexivity.
Qed.

Lemma positional_single_position_repeats_witness :
  exists m Y,
    PositionalEncoding.__init__ 4 1 = Ok m /\
    PositionalEncoding.forward m (Torch.ones [2; 4; 3]) = Ok Y /\
    shape Y = [2; 4; 3].
Proof.
  eexists.
  destruct (positional_single_position_repeats 4 _ (Torch.ones [2; 4; 3])
              2 3 eq_refl eq_refl) as (Y & HY & Hs & _).
  - repeat constructor.
  - exists Y. split; [reflexivity|]. split; assumption.
Defined.

(** ** The encoder, continued *)

Lemma dropout_init_ok_iff (p : Q) :
  is_ok (Dropout.__init__ p) = true <-> (0 <= p)%Q /\ (p <= 1)%Q.
Proof.
  unfold Dropout.__init__.
  destruct (Qle_bool 0 p) eqn:H0; destruct (Qle_bool p 1) eqn:H1;
    cbn [andb is_ok]; rewrite <- !Qle_bool_iff, H0, H1;
    intuition congruence.
Qed.

Lemma encoder_layer_init_ok_iff (d nh ff : nat) (p : Q) :
  is_ok (TransformerEncoderLayer.__init__ d nh ff p) = true <->
  0 < nh /\ d mod nh = 0 /\ (0 <= p)%Q /\ (p <= 1)%Q.
Proof.
  unfold TransformerEncoderLayer.__init__.
  rewrite <- dropout_init_ok_iff.
  destruct (Nat.ltb_spec 0 nh); [|cbn [is_ok]; intuition (lia || congruence)].
  destruct (Nat.eqb_spec (d mod nh) 0);
    [|cbn [is_ok]; intuition (lia || congruence)].
  destruct (Dropout.__init__ p); cbn [bind is_ok]; intuition congruence.
Qed.

Lemma positional_init_ok_iff (d L : nat) :
  is_ok (PositionalEncoding.__init__ d L) = true <->
  0 < d /\ (Nat.even d = true \/ d = 1).
Proof.
  split.
  - destruct (PositionalEncoding.__init__ d L) as [m|] eqn:Hm;
      [|discriminate].
    intros _. apply positional_init_inv in Hm. tauto.
  - intros [Hd Hpar].
    destruct (positional_init_ok d L Hd) as (m & -> & _); [|reflexivity].
    destruct Hpar as [Hev| ->]; [|reflexivity].
    rewrite (even_half _ Hev), Nat.eqb_refl. reflexivity.
Qed.

(** X8. With a positive input size and feed-forward width, an encoder can
    be built exactly when d_model is positive and even (or 1), the number of
    heads is positive and divides d_model, and the dropout rate is a
    probability.  Its positional table always has 14*24 positions, and the
    failures of the table are reported before those of the attention
    layer.  (The library initialises a layer from its input width, which is
    therefore taken positive.) *)
Theorem encoder_init_succeeds_iff (init : TransformerEncoder.params)
    (input_size d_model num_layers num_heads feedforward_size : nat)
    (dropout : Q) :
  0 < input_size -> 0 < feedforward_size ->
  (is_ok (TransformerEncoder.__init__ init input_size d_model num_layers
            num_heads feedforward_size dropout) = true <->
   0 < d_model /\ (Nat.even d_model = true \/ d_model = 1) /\
   0 < num_heads /\ d_model mod num_heads = 0 /\
   (0 <= dropout)%Q /\ (dropout <= 1)%Q) /\
  (forall enc,
     TransformerEncoder.__init__ init input_size d_model num_layers
       num_heads feedforward_size dropout = Ok enc ->
     TransformerEncoder.d_model enc = d_model /\
     Conv1d.in_channels (TransformerEncoder.input_embedding enc)
       = input_size /\
     Conv1d.out_channels (TransformerEncoder.input_embedding enc)
       = d_model /\
     PositionalEncoding.max_len (TransformerEncoder.pos_encoder enc)
       = 14 * 24 /\
     NNTransformerEncoder.num_layers
       (TransformerEncoder.transformer_encoder enc) = num_layers) /\
  (d_model = 0 ->
   TransformerEncoder.__init__ init input_size d_model num_layers
     num_heads feedforward_size dropout = Err ZeroDivisionError) /\
  (Nat.odd d_model = true -> 3 <= d_model ->
   TransformerEncoder.__init__ init input_size d_model num_layers
     num_heads feedforward_size dropout = Err RuntimeError).
Proof.
  intros _ _. split; [|split; [|split]].
  - unfold TransformerEncoder.__init__.
    pose proof (positional_init_ok_iff d_model
                  PositionalEncoding.default_max_len) as Hp.
    pose proof (encoder_layer_init_ok_iff d_model num_heads
                  feedforward_size dropout) as Hl.
    destruct (PositionalEncoding.__init__ _ _); cbn [bind is_ok] in *;
      [|intuition congruence].
    destruct (TransformerEncoderLayer.__init__ _ _ _ _);
      cbn [bind is_ok] in *; intuition congruence.
  - intros enc Henc.
    destruct (encoder_init_inv _ _ _ _ _ _ _ _ Henc)
      as (table & layer & Htable & _ & ->).
    apply positional_init_inv in Htable.
    destruct Htable as (_ & _ & Hs & _).
    unfold PositionalEncoding.max_len.
    cbn [TransformerEncoder.d_model TransformerEncoder.input_embedding
         TransformerEncoder.pos_encoder
         TransformerEncoder.transformer_encoder Conv1d.in_channels
         Conv1d.out_channels NNTransformerEncoder.num_layers].
    rewrite Hs. repeat split.
  - intros ->. unfold TransformerEncoder.__init__.
    now rewrite positional_init_zero.
  - intros Hodd Hd. unfold TransformerEncoder.__init__.
    now rewrite (positional_init_odd _ _ Hodd Hd).
Qed.

Lemma encoder_init_succeeds_iff_witness :
  TransformerEncoder.__init__ zero_encoder_params 8 0 1 0 32 0.3%Q
    = Err ZeroDivisionError /\
  TransformerEncoder.__init__ zero_encoder_params 8 5 1 0 32 0.3%Q
    = Err RuntimeError /\
  exists enc,
    TransformerEncoder.__init__ zero_encoder_params 8 8 1 2 32 0.3%Q
      = Ok enc /\
    PositionalEncoding.max_len (TransformerEncoder.pos_encoder enc)
      = 14 * 24.
Proof.
  split; [|split].
  - apply (encoder_init_succeeds_iff zero_encoder_params 8 0 1 0 32 0.3%Q);
      [repeat constructor|repeat constructor|reflexivity].
  - apply (encoder_init_succeeds_iff zero_encoder_params 8 5 1 0 32 0.3%Q);
      [repeat constructor|repeat constructor|reflexivity|repeat constructor].
  - eexists. split; [reflexivity|].
    apply (encoder_init_succeeds_iff zero_encoder_params 8 8 1 2 32 0.3%Q);
      [repeat constructor|repeat constructor|reflexivity].
Defined.

(** X9. For an encoder with at least one layer and an input of shape
    B x C x T (B, T >= 1), the forward call returns exactly when C is the
    encoder's input size, T is at most 14*24 and the mask size passed
    alongside equals T; its result has shape B x d_model x T.  (A stack of
    no layers never looks at its mask, hence the first hypothesis.) *)
Theorem encoder_forward_accepts (init : TransformerEncoder.params)
    (input_size d_model num_layers num_heads feedforward_size : nat)
    (dropout : Q) (enc : TransformerEncoder.t) (X : tensor R)
    (B C T Tmask : nat) :
  TransformerEncoder.__init__ init input_size d_model num_layers num_heads
    feedforward_size dropout = Ok enc ->
  1 <= num_layers -> 1 <= B -> 1 <= T -> shape X = [B; C; T] ->
  (is_ok (TransformerEncoder.forward enc X Tmask) = true <->
   C = input_size /\ T <= 14 * 24 /\ Tmask = T) /\
  (forall Y, TransformerEncoder.forward enc X Tmask = Ok Y ->
             shape Y = [B; d_model; T]).
Proof.
  intros Henc Hlayers _ _ HX.
  destruct (Nat.eq_dec C input_size) as [->|HC].
  2:{ rewrite (encoder_forward_channels _ _ _ _ _ _ _ _ X B C T Tmask
                 Henc HX HC).
      split; [cbn [is_ok]; intuition congruence|discriminate]. }
  destruct (Nat.le_gt_cases T PositionalEncoding.default_max_len)
    as [HT|HT].
  2:{ rewrite (proj2 (encoder_forward_too_long _ _ _ _ _ _ _ _ X B
                        input_size T Tmask Henc HX HT)).
      split; [cbn [is_ok]|discriminate].
      unfold PositionalEncoding.default_max_len in HT. simpl in HT.
      split; [discriminate|]. intros (_ & HT' & _). simpl in HT'. lia. }
  destruct (encoder_init_inv _ _ _ _ _ _ _ _ Henc)
    as (table & layer & Htable & Hlayer & ->).
  apply positional_init_inv in Htable. destruct Htable as (_ & _ & Hs & _).
  apply encoder_layer_width in Hlayer.
  unfold TransformerEncoder.forward.
  cbn [TransformerEncoder.input_embedding TransformerEncoder.pos_encoder
       TransformerEncoder.d_model TransformerEncoder.transformer_encoder].
  destruct (conv1d_forward_ok
              (Conv1d.Make input_size d_model
                 (TransformerEncoder.embedding_weight init)
                 (TransformerEncoder.embedding_bias init))
              X B input_size T HX eq_refl) as (X1 & -> & HX1).
  cbn [bind Conv1d.out_channels] in *.
  destruct (positional_forward_ok table
              (Torch.scale (sqrt (INR d_model)) X1) B d_model _ T Hs HX1 HT)
    as (X2 & -> & HX2 & _).
  cbn [bind].
  destruct (permute_rank3 [2; 0; 1] X2 B d_model T HX2 eq_refl)
    as (src & -> & Hsrc).
  cbn [bind map nth] in *.
  destruct (causal_mask_entries Tmask) as (mask & -> & Hmask & _).
  cbn [bind]. unfold NNTransformerEncoder.forward.
  cbn [NNTransformerEncoder.num_layers NNTransformerEncoder.encoder_layer].
  replace (num_layers =? 0) with false by (symmetry; apply Nat.eqb_neq; lia).
  rewrite Hsrc, Hmask, Hlayer, Nat.eqb_refl, andb_diag.
  destruct (Nat.eqb_spec Tmask T) as [->|HTm]; cbn [bind].
  - match goal with
    | |- context [Torch.permute [1; 2; 0] ?x] =>
        destruct (permute_rank3 [1; 2; 0] x T B d_model eq_refl eq_refl)
          as (Y & -> & HY)
    end.
    cbn [is_ok]. split.
    + split; [intros _|reflexivity].
      unfold PositionalEncoding.default_max_len in HT. simpl in HT.
      simpl. repeat split; lia.
    + intros Y' HY'. injection HY' as <-. exact HY.
  - cbn [is_ok]. split; [|discriminate].
    split; [discriminate|]. intros (_ & _ & Heq). congruence.
Qed.

Lemma encoder_forward_accepts_witness :
  exists enc,
    TransformerEncoder.__init__ zero_encoder_params 8 8 1 2 32 0.3%Q
      = Ok enc /\
    is_ok (TransformerEncoder.forward enc (example_X 2 7) 7) = true /\
    is_ok (TransformerEncoder.forward enc (example_X 2 7) 6) = false.
Proof.
  eexists. split; [reflexivity|].
  destruct (encoder_forward_accepts zero_encoder_params 8 8 1 2 32 0.3%Q _
              (example_X 2 7) 2 8 7 7 eq_refl (le_n 1))
    as (Hok & _); [repeat constructor|repeat constructor|reflexivity|].
  split; [|reflexivity].
  apply Hok. repeat split. apply Nat.leb_le. reflexivity.
Defined.


Lemma encoder_forward_uses_embed (enc : TransformerEncoder.t)
    (X : tensor R) (T : nat) :
  TransformerEncoder.forward enc X T =
    (E <- encoder_embed enc X ;;
     src <- Torch.permute [2; 0; 1] E ;;
     mask <- TransformerEncoder._causal_mask T ;;
     Y <- NNTransformerEncoder.forward
            (TransformerEncoder.transformer_encoder enc) src mask ;;
     Torch.permute [1; 2; 0] Y).
Proof.
  unfold TransformerEncoder.forward, encoder_embed.
  destruct (Conv1d.forward _ X); reflexivity.
Qed.



(** ** The model's constructor *)

(** X11. With positive layer widths, a model can be built exactly when
    d_model is positive and even (or 1), the number of heads is positive and
    divides d_model, and both dropout rates are probabilities; F, D, the
    number of static features, the number of layers, the batch-norm name and
    no_exp play no part.  A dropout rate that is no probability is reported
    first, as a ValueError, whatever else is wrong.  (The library
    initialises a layer from its input width, hence the positive widths.) *)
Theorem transformer_init_succeeds_iff (init : Transformer.params)
    (config : Config.t) (F D S : nat) :
  0 < Config.feedforward_size config -> 0 < D ->
  0 < Config.diagnosis_size config -> 0 < Config.last_linear_size config ->
  (is_ok (Transformer.__init__ init config F D S) = true <->
   0 < Config.d_model config /\
   (Nat.even (Config.d_model config) = true \/ Config.d_model config = 1) /\
   0 < Config.n_heads config /\
   Config.d_model config mod Config.n_heads config = 0 /\
   (0 <= Config.trans_dropout_rate config)%Q /\
   (Config.trans_dropout_rate config <= 1)%Q /\
   (0 <= Config.main_dropout_rate config)%Q /\
   (Config.main_dropout_rate config <= 1)%Q) /\
  (~ ((0 <= Config.trans_dropout_rate config)%Q /\
      (Config.trans_dropout_rate config <= 1)%Q) \/
   ~ ((0 <= Config.main_dropout_rate config)%Q /\
      (Config.main_dropout_rate config <= 1)%Q) ->
   Transformer.__init__ init config F D S = Err ValueError).
Proof.
  intros _ _ _ _.
  pose proof (dropout_init_ok_iff (Config.trans_dropout_rate config)) as Ht.
  pose proof (dropout_init_ok_iff (Config.main_dropout_rate config)) as Hm.
  pose proof (positional_init_ok_iff (Config.d_model config)
                PositionalEncoding.default_max_len) as Hp.
  pose proof (encoder_layer_init_ok_iff (Config.d_model config)
                (Config.n_heads config) (Config.feedforward_size config)
                (Config.trans_dropout_rate config)) as Hl.
  unfold Transformer.__init__, TransformerEncoder.__init__.
  assert (Hval : forall p, is_ok (Dropout.__init__ p) = false ->
                           Dropout.__init__ p = Err ValueError).
  { intros p. unfold Dropout.__init__.
    destruct (Qle_bool 0 p && Qle_bool p 1); [discriminate|reflexivity]. }
  pose proof (Hval (Config.trans_dropout_rate config)) as Hvt.
  pose proof (Hval (Config.main_dropout_rate config)) as Hvm.
  destruct (Dropout.__init__ (Config.trans_dropout_rate config)) as [dt|et];
    cbn [bind is_ok] in *.
  2:{ assert (et = ValueError) as -> by (injection (Hvt eq_refl); auto).
      split; [intuition congruence|].
      reflexivity. }
  destruct (Dropout.__init__ (Config.main_dropout_rate config)) as [dm|em];
    cbn [bind is_ok] in *.
  2:{ assert (em = ValueError) as -> by (injection (Hvm eq_refl); auto).
      split; [intuition congruence|].
      reflexivity. }
  split.
  - destruct (PositionalEncoding.__init__ _ _); cbn [bind is_ok] in *;
      [|intuition congruence].
    destruct (TransformerEncoderLayer.__init__ _ _ _ _);
      cbn [bind is_ok] in *; intuition congruence.
  - intros [Hbad|Hbad]; exfalso; apply Hbad; [apply Ht|apply Hm];
      reflexivity.
Qed.

Lemma transformer_init_succeeds_iff_witness :
  is_ok (Transformer.__init__ zero_params (example_config "default" true)
           3 5 4) = true /\
  Transformer.__init__ zero_params
    (Config.Make 0 1 2 32 0.3%Q 1.5%Q 6 "default" 17 true) 3 5 4
    = Err ValueError.
Proof.
  split.
  - apply (transformer_init_succeeds_iff zero_params
             (example_config "default" true) 3 5 4);
      [repeat constructor|repeat constructor|repeat constructor
      |repeat constructor|].
    repeat split; try (left; reflexivity); try discriminate;
      repeat constructor.
  - apply (transformer_init_succeeds_iff zero_params
             (Config.Make 0 1 2 32 0.3%Q 1.5%Q 6 "default" 17 true) 3 5 4);
      [repeat constructor|repeat constructor|repeat constructor
      |repeat constructor|].
    right. intros [_ H]. revert H. unfold Qle. simpl. lia.
Defined.

(** ** The feature rows of the forward call *)

Lemma trim_permuted (x : tensor R) (B d T : nat) :
  shape x = [B; d; T] ->
  exists p,
    (s0 <- Torch.slice 0 0 None x ;;
     s1 <- Torch.slice 1 0 None s0 ;;
     s2 <- Torch.slice 2 5 None s1 ;;
     Torch.permute [0; 2; 1] s2) = Ok p /\
    shape p = [B; T - Nat.min 5 T; d] /\
    forall b t j, elem p [b; t; j] = elem x [b; j; t + Nat.min 5 T].
Proof.
  intros Hx. destruct x as [sx ex]. cbn [shape elem] in *. subst sx.
  eexists. split; [reflexivity|]. split.
  - simpl. now rewrite !Nat.min_0_l, !Nat.sub_0_r.
  - intros b t j. simpl. rewrite !Nat.min_0_l, !Nat.add_0_r. reflexivity.
Qed.

Lemma unflatten_rows (B n d b t j : nat) :
  b < B -> t < n -> j < d ->
  Torch.unflatten_index [B; n; d]
    (Torch.flatten_index [B * n; d] [b * n + t; j]) = [b; t; j].
Proof.
  intros Hb Ht Hj. unfold Torch.unflatten_index, Torch.flatten_index.
  cbn [rev app combine fold_left fst snd Torch.unflatten_rev].
  rewrite Nat.mul_0_l, Nat.add_0_l.
  assert (H1 : ((b * n + t) * d + j) mod d = j).
  { rewrite Nat.add_comm, Nat.Div0.mod_add. apply Nat.mod_small, Hj. }
  assert (H2 : ((b * n + t) * d + j) / d = b * n + t).
  { rewrite Nat.add_comm, Nat.div_add by lia.
    rewrite Nat.div_small by exact Hj. reflexivity. }
  rewrite H1, H2.
  assert (H3 : (b * n + t) mod n = t).
  { rewrite Nat.add_comm, Nat.Div0.mod_add. apply Nat.mod_small, Ht. }
  assert (H4 : (b * n + t) / n = b).
  { rewrite Nat.add_comm, Nat.div_add by lia.
    rewrite Nat.div_small by exact Ht. reflexivity. }
  rewrite H3, H4, (Nat.mod_small b B Hb). reflexivity.
Qed.

Lemma trim_value (x : tensor R) (B d T : nat) :
  shape x = [B; d; T] -> 5 < T -> 1 <= B ->
  exists y,
    (s0 <- Torch.slice 0 0 None x ;;
     s1 <- Torch.slice 1 0 None s0 ;;
     s2 <- Torch.slice 2 5 None s1 ;;
     p <- Torch.permute [0; 2; 1] s2 ;;
     Torch.view [Z.of_nat B * (Z.of_nat T - 5); -1]%Z p) = Ok y /\
    shape y = [B * (T - 5); d] /\
    forall b t j, b < B -> t < T - 5 -> j < d ->
      elem y [b * (T - 5) + t; j] = elem x [b; j; t + 5].
Proof.
  intros Hx HT HB.
  destruct (trim_permuted x B d T Hx) as (p & Hp & Hs & Hv).
  assert (Hstep :
    (s0 <- Torch.slice 0 0 None x ;;
     s1 <- Torch.slice 1 0 None s0 ;;
     s2 <- Torch.slice 2 5 None s1 ;;
     p <- Torch.permute [0; 2; 1] s2 ;;
     Torch.view [Z.of_nat B * (Z.of_nat T - 5); -1]%Z p) =
    Torch.view [Z.of_nat B * (Z.of_nat T - 5); -1]%Z p).
  { revert Hp.
    destruct (Torch.slice 0 0 None x) as [s0|]; cbn [bind]; [|discriminate].
    destruct (Torch.slice 1 0 None s0) as [s1|]; cbn [bind]; [|discriminate].
    destruct (Torch.slice 2 5 None s1) as [s2|]; cbn [bind]; [|discriminate].
    intros ->. reflexivity. }
  rewrite Hstep. unfold Torch.view. rewrite Hs.
  rewrite (Nat.min_l 5 T) in * by lia.
  replace (numel_of [B; T - 5; d]) with (B * (T - 5) * d)
    by (unfold numel_of; simpl; ring).
  rewrite (infer_size_rows _ (B * (T - 5)) d); [|nia|nia].
  eexists. split; [reflexivity|]. split; [reflexivity|].
  intros b t j Hb Ht Hj. cbn [elem].
  rewrite (unflatten_rows B (T - 5) d b t j Hb Ht Hj). apply Hv.
Qed.

Lemma repeat_interleave_value {A : Type} (r : Z) (x : tensor A) (n c : nat) :
  shape x = [n; c] -> (0 <= r)%Z ->
  exists y,
    Torch.repeat_interleave r x = Ok y /\
    shape y = [n * Z.to_nat r; c] /\
    forall i j, elem y [i; j] = elem x [i / Z.to_nat r; j].
Proof.
  intros Hx Hr. unfold Torch.repeat_interleave. rewrite Hx.
  apply Z.leb_le in Hr. rewrite Hr, orb_true_r.
  eexists. split; [reflexivity|]. split; reflexivity.
Qed.

Lemma cat_columns_value {A : Type} (x y z : tensor A) (n a b c : nat) :
  shape x = [n; a] -> shape y = [n; b] -> shape z = [n; c] ->
  exists w,
    Torch.cat x [y; z] 1 = Ok w /\
    shape w = [n; a + (b + (c + 0))] /\
    (forall i j, j < a -> elem w [i; j] = elem x [i; j]) /\
    (forall i j, j < b -> elem w [i; a + j] = elem y [i; j]) /\
    (forall i j, elem w [i; a + b + j] = elem z [i; j]).
Proof.
  intros Hx Hy Hz. unfold Torch.cat. rewrite Hx.
  cbn [length forallb]. rewrite Hy, Hz, !same_except_cols.
  change (1 <? 2) with true. cbn [andb bind].
  eexists. split; [reflexivity|]. split.
  { cbn [shape fold_right]. rewrite Hx, Hy, Hz. reflexivity. }
  cbn [elem Torch.cat_elem]. rewrite Hx, Hy. cbn [nth].
  unfold Torch.set_nth. cbn [firstn skipn app nth].
  split; [|split].
  - intros i j Hj.
    replace (j <? a) with true by (symmetry; apply Nat.ltb_lt; exact Hj).
    reflexivity.
  - intros i j Hj.
    replace (a + j <? a) with false by (symmetry; apply Nat.ltb_ge; lia).
    replace (a + j - a) with j by lia.
    replace (j <? b) with true by (symmetry; apply Nat.ltb_lt; exact Hj).
    reflexivity.
  - intros i j.
    replace (a + b + j <? a) with false by (symmetry; apply Nat.ltb_ge; lia).
    replace (a + b + j - a) with (b + j) by lia.
    replace (b + j <? b) with false by (symmetry; apply Nat.ltb_ge; lia).
    replace (b + j - b) with j by lia.
    reflexivity.
Qed.

Lemma row_of_repeat (n b t : nat) : t < n -> (b * n + t) / n = b.
Proof.
  intros Ht. rewrite Nat.add_comm, Nat.div_add by lia.
  rewrite Nat.div_small by exact Ht. reflexivity.
Qed.

Lemma combined_features_value (flat diagnoses_enc X_final : tensor R)
    (B S G d T : nat) :
  shape flat = [B; S] -> shape diagnoses_enc = [B; G] ->
  shape X_final = [B; d; T] -> 1 <= B -> 5 < T ->
  exists W,
    combined_features B T flat diagnoses_enc X_final = Ok W /\
    shape W = [B * (T - 5); S + G + d] /\
    forall b t, b < B -> t < T - 5 ->
      (forall j, j < S ->
         elem W [b * (T - 5) + t; j] = elem flat [b; j]) /\
      (forall j, j < G ->
         elem W [b * (T - 5) + t; S + j] = elem diagnoses_enc [b; j]) /\
      (forall j, j < d ->
         elem W [b * (T - 5) + t; S + G + j] = elem X_final [b; j; t + 5]).
Proof.
  intros Hflat Hdiag HX HB HT. unfold combined_features.
  destruct (repeat_interleave_value (Z.of_nat T - 5) flat B S Hflat)
    as (flat_rep & -> & Hfs & Hfv); [lia|]. cbn [bind].
  destruct (repeat_interleave_value (Z.of_nat T - 5) diagnoses_enc B G Hdiag)
    as (diag_rep & -> & Hds & Hdv); [lia|]. cbn [bind].
  replace (Z.to_nat (Z.of_nat T - 5)) with (T - 5) in * by lia.
  destruct (trim_value X_final B d T HX HT HB)
    as (trimmed & -> & Hts & Htv). cbn [bind].
  destruct (cat_columns_value flat_rep diag_rep trimmed _ _ _ _ Hfs Hds Hts)
    as (W & -> & HWs & HW1 & HW2 & HW3).
  exists W. split; [reflexivity|]. split.
  { rewrite HWs. f_equal. f_equal. lia. }
  intros b t Hb Ht. split; [|split]; intros j Hj.
  - rewrite (HW1 _ _ Hj), Hfv, (row_of_repeat _ _ _ Ht). reflexivity.
  - rewrite (HW2 _ _ Hj), Hdv, (row_of_repeat _ _ _ Ht). reflexivity.
  - rewrite HW3. apply Htv; assumption.
Qed.


(** X12. The features handed to the final layers have one row for every
    sequence b and retained timestep t, B * (T - 5) rows in all: row
    b * (T - 5) + t holds the static features of b, then the diagnosis
    encoding of b, then the encoder output of b at timestep t + 5.  So the
    repeated rows and the rows of the reshaped encoder output line up, and
    the first 5 timesteps of the encoder output are not used. *)
Theorem combined_features_rows (flat diagnoses_enc X_final : tensor R)
    (B S G d T : nat) :
  shape flat = [B; S] -> shape diagnoses_enc = [B; G] ->
  shape X_final = [B; d; T] -> 1 <= B -> 5 < T ->
  exists W,
    combined_features B T flat diagnoses_enc X_final = Ok W /\
    shape W = [B * (T - 5); S + G + d] /\
    forall b t, b < B -> t < T - 5 ->
      (forall j, j < S ->
         elem W [b * (T - 5) + t; j] = elem flat [b; j]) /\
      (forall j, j < G ->
         elem W [b * (T - 5) + t; S + j] = elem diagnoses_enc [b; j]) /\
      (forall j, j < d ->
         elem W [b * (T - 5) + t; S + G + j] = elem X_final [b; j; t + 5]).
Proof.
  intros Hflat Hdiag HX HB HT.
  exact (combined_features_value flat diagnoses_enc X_final B S G d T
           Hflat Hdiag HX HB HT).
Qed.

Lemma combined_features_rows_witness :
  exists W,
    combined_features 2 7 (example_flat 2) (Torch.zeros [2; 6])
      (Torch.zeros [2; 8; 7]) = Ok W /\
    shape W = [2 * (7 - 5); 4 + 6 + 8].
Proof.
  destruct (combined_features_rows (example_flat 2) (Torch.zeros [2; 6])
              (Torch.zeros [2; 8; 7]) 2 4 6 8 7 eq_refl eq_refl eq_refl)
    as (W & HW & Hs & _); [repeat constructor|repeat constructor|].
  exists W. split; assumption.
Defined.

Lemma forward_uses_combined_features (self : Transformer.t)
    (md : Transformer.mode) (X diagnoses flat : tensor R) :
  Transformer.forward self md X diagnoses flat =
    match shape X with
    | [B; _; T] =>
        trans_output <-
          TransformerEncoder.forward (Transformer.transformer self) X T ;;
        let X_final :=
          Torch.relu
            (Dropout.forward (Transformer.trans_dropout self)
               (Transformer.training md) (Transformer.keep_trans md)
               trans_output) in
        encoded <-
          Linear.forward (Transformer.diagnosis_encoder self) diagnoses ;;
        normed <-
          Norm.forward (Transformer.bn_diagnosis_encoder self)
            (Transformer.bn_diagnosis_fn self) encoded ;;
        let diagnoses_enc :=
          Torch.relu
            (Dropout.forward (Transformer.main_dropout self)
               (Transformer.training md) (Transformer.keep_diagnoses md)
               normed) in
        combined <- combined_features B T flat diagnoses_enc X_final ;;
        projected <- Linear.forward (Transformer.point self) combined ;;
        normed <-
          Norm.forward (Transformer.bn_point_last self)
            (Transformer.bn_point_fn self) projected ;;
        let last_point :=
          Torch.relu
            (Dropout.forward (Transformer.main_dropout self)
               (Transformer.training md) (Transformer.keep_point md)
               normed) in
        scores <- Linear.forward (Transformer.point_final self) last_point ;;
        raw <- Torch.view [Z.of_nat B; Z.of_nat T - 5]%Z scores ;;
        Ok (Hardtanh.forward (Transformer.hardtanh self)
              (if Transformer.no_exp self then raw
               else Torch.map_t exp raw))
    | _ => Err ValueError
    end.
Proof.
  unfold Transformer.forward, combined_features.
  destruct (shape X) as [|B [|C [|T [|]]]]; try reflexivity.
  destruct (TransformerEncoder.forward _ X T) as [trans_output|];
    cbn [bind]; [|reflexivity].
  destruct (Linear.forward _ diagnoses) as [encoded|];
    cbn [bind]; [|reflexivity].
  destruct (Norm.forward _ _ encoded) as [normed|];
    cbn [bind]; [|reflexivity].
  destruct (Torch.repeat_interleave _ flat) as [flat_rep|];
    cbn [bind]; [|reflexivity].
  destruct (Torch.repeat_interleave _ _) as [diag_rep|];
    cbn [bind]; [|reflexivity].
  match goal with
  | |- context [Torch.slice 0 0 None ?x] =>
      destruct (s0 <- Torch.slice 0 0 None x ;;
                s1 <- Torch.slice 1 0 None s0 ;;
                s2 <- Torch.slice 2 5 None s1 ;;
                p <- Torch.permute [0; 2; 1] s2 ;;
                Torch.view [Z.of_nat B * (Z.of_nat T - 5); -1]%Z p)
        as [trimmed|]; cbn [bind]; [|destruct (Transformer.no_exp self); reflexivity]
  end.
  destruct (Torch.cat flat_rep [diag_rep; trimmed] 1) as [combined|];
    cbn [bind]; [|destruct (Transformer.no_exp self); reflexivity].
  destruct (Linear.forward _ combined) as [projected|];
    cbn [bind]; [|destruct (Transformer.no_exp self); reflexivity].
  destruct (Norm.forward _ _ projected) as [normed2|];
    cbn [bind]; [|destruct (Transformer.no_exp self); reflexivity].
  destruct (Transformer.no_exp self);
    destruct (Linear.forward _ _) as [scores|]; cbn [bind];
    try reflexivity;
    destruct (Torch.view _ scores); reflexivity.
Qed.

Lemma trim_no_rows (x : tensor R) (B d T : nat) :
  shape x = [B; d; T] -> B = 0 \/ T <= 5 ->
  (s0 <- Torch.slice 0 0 None x ;;
   s1 <- Torch.slice 1 0 None s0 ;;
   s2 <- Torch.slice 2 5 None s1 ;;
   p <- Torch.permute [0; 2; 1] s2 ;;
   Torch.view [Z.of_nat B * (Z.of_nat T - 5); -1]%Z p) = Err RuntimeError.
Proof.
  intros Hx Hno.
  destruct (trim_shape x B d T Hx) as (p & Hp & Hs).
  revert Hp.
  destruct (Torch.slice 0 0 None x) as [s0|]; cbn [bind]; [|discriminate].
  destruct (Torch.slice 1 0 None s0) as [s1|]; cbn [bind]; [|discriminate].
  destruct (Torch.slice 2 5 None s1) as [s2|]; cbn [bind]; [|discriminate].
  intros ->. cbn [bind]. unfold Torch.view. rewrite Hs.
  replace (numel_of [B; T - Nat.min 5 T; d]) with 0
    by (unfold numel_of; simpl; nia).
  rewrite infer_size_no_rows; [reflexivity|nia].
Qed.

Lemma same_except_cols_inv (s : list nat) (n c : nat) :
  Torch.same_except 1 s [n; c] = true -> exists a, s = [n; a].
Proof.
  unfold Torch.same_except. intros H. apply andb_true_iff in H.
  destruct H as [Hlen Hall]. apply Nat.eqb_eq in Hlen.
  destruct s as [|n' [|a [|]]]; try discriminate.
  cbn [length seq forallb nth orb andb] in Hall.
  change (0 =? 1) with false in Hall. cbn [orb] in Hall.
  apply andb_true_iff in Hall. destruct Hall as [Hn _].
  apply Nat.eqb_eq in Hn. subst n'. exists a. reflexivity.
Qed.

Lemma same_except_cols_inv_r (s : list nat) (n a : nat) :
  Torch.same_except 1 [n; a] s = true -> exists c, s = [n; c].
Proof.
  unfold Torch.same_except. intros H. apply andb_true_iff in H.
  destruct H as [Hlen Hall]. apply Nat.eqb_eq in Hlen.
  destruct s as [|n' [|c [|]]]; try discriminate.
  cbn [length seq forallb nth orb andb] in Hall.
  change (0 =? 1) with false in Hall. cbn [orb] in Hall.
  apply andb_true_iff in Hall. destruct Hall as [Hn _].
  apply Nat.eqb_eq in Hn. subst n'. exists c. reflexivity.
Qed.

Lemma repeat_interleave_inv {A : Type} (r : Z) (x y : tensor A) :
  Torch.repeat_interleave r x = Ok y ->
  exists n s, shape x = n :: s /\ shape y = n * Z.to_nat r :: s.
Proof.
  unfold Torch.repeat_interleave.
  destruct (shape x) as [|n s]; [discriminate|].
  destruct ((n =? 0) || (0 <=? r)%Z); [|discriminate].
  cbn [bind]. intros H. injection H as <-. exists n, s. split; reflexivity.
Qed.

Lemma linear_forward_inv (m : Linear.t) (x y : tensor R) :
  Linear.forward m x = Ok y ->
  exists r, shape x = r ++ [Linear.in_features m] /\
            shape y = r ++ [Linear.out_features m].
Proof.
  unfold Linear.forward. destruct (rev (shape x)) as [|k r0] eqn:Hrev;
    [discriminate|].
  destruct (Nat.eqb_spec k (Linear.in_features m)) as [<-|]; [|discriminate].
  cbn [bind]. intros H. injection H as <-. exists (rev r0).
  split; [|reflexivity].
  rewrite <- (rev_involutive (shape x)), Hrev. reflexivity.
Qed.

Lemma norm_forward_inv (m : Norm.t)
    (fn : tensor R -> result (list nat -> R)) (x y : tensor R) :
  Norm.forward m fn x = Ok y -> shape y = shape x.
Proof.
  unfold Norm.forward.
  destruct m as [n mom|n|]; [| |intros H; injection H as <-; reflexivity];
    destruct (shape x) as [|a [|c [|e [|]]]] eqn:Hx; try discriminate;
    destruct (c =? n); try discriminate; cbn [bind];
    destruct (fn x); try discriminate; cbn [bind];
    intros H; injection H as <-; cbn [shape]; congruence.
Qed.

Lemma combined_features_inv (flat diagnoses_enc X_final W : tensor R)
    (B d T : nat) :
  shape X_final = [B; d; T] ->
  combined_features B T flat diagnoses_enc X_final = Ok W ->
  1 <= B /\ 6 <= T /\
  exists S G, shape flat = [B; S] /\ shape diagnoses_enc = [B; G] /\
              shape W = [B * (T - 5); S + G + d].
Proof.
  intros HX. unfold combined_features.
  destruct (Torch.repeat_interleave _ flat) as [flat_rep|] eqn:Hf;
    cbn [bind]; [|discriminate].
  destruct (Torch.repeat_interleave _ diagnoses_enc) as [diag_rep|] eqn:Hd;
    cbn [bind]; [|discriminate].
  destruct (Nat.eq_dec B 0) as [HB|HB].
  { rewrite (trim_no_rows X_final B d T HX (or_introl HB)). discriminate. }
  destruct (Nat.le_gt_cases T 5) as [HT|HT].
  { rewrite (trim_no_rows X_final B d T HX (or_intror HT)). discriminate. }
  destruct (trim_ok X_final B d T HX HT) as (trimmed & -> & Hts); [lia|].
  cbn [bind]. intros Hcat.
  apply repeat_interleave_inv in Hf. destruct Hf as (n & s & Hfs & Hfr).
  apply repeat_interleave_inv in Hd. destruct Hd as (n' & s' & Hds & Hdr).
  replace (Z.to_nat (Z.of_nat T - 5)) with (T - 5) in * by lia.
  unfold Torch.cat in Hcat.
  destruct (1 <? length (shape flat_rep)); cbn [bind] in Hcat;
    [|discriminate].
  cbn [forallb] in Hcat.
  destruct (Torch.same_except 1 (shape flat_rep) (shape diag_rep)) eqn:He1;
    cbn [andb bind] in Hcat; [|discriminate].
  destruct (Torch.same_except 1 (shape flat_rep) (shape trimmed)) eqn:He2;
    cbn [andb bind] in Hcat; [|discriminate].
  rewrite Hts in He2. apply same_except_cols_inv in He2.
  destruct He2 as (a & Ha). rewrite Ha in He1.
  apply same_except_cols_inv_r in He1. destruct He1 as (c & Hc).
  rewrite Hfr in Ha. rewrite Hdr in Hc.
  injection Ha as Hn ->. injection Hc as Hn' ->.
  assert (n = B) by nia. assert (n' = B) by nia. subst n n'.
  split; [lia|]. split; [lia|]. exists a, c.
  split; [exact Hfs|]. split; [exact Hds|].
  injection Hcat as <-. cbn [shape fold_right]. rewrite Hfr, Hdr, Hts.
  unfold Torch.set_nth. cbn [firstn skipn app nth].
  f_equal. f_equal. lia.
Qed.

Lemma encoder_forward_inv (init : TransformerEncoder.params)
    (input_size d_model num_layers num_heads feedforward_size : nat)
    (dropout : Q) (enc : TransformerEncoder.t) (X Y : tensor R)
    (B C T Tmask : nat) :
  TransformerEncoder.__init__ init input_size d_model num_layers num_heads
    feedforward_size dropout = Ok enc ->
  shape X = [B; C; T] ->
  TransformerEncoder.forward enc X Tmask = Ok Y ->
  C = input_size /\ T <= 14 * 24 /\ shape Y = [B; d_model; T].
Proof.
  intros Henc HX HY.
  destruct (Nat.eq_dec C input_size) as [->|HC].
  2:{ rewrite (encoder_forward_channels _ _ _ _ _ _ _ _ X B C T Tmask
                 Henc HX HC) in HY. discriminate. }
  destruct (Nat.le_gt_cases T PositionalEncoding.default_max_len)
    as [HT|HT].
  2:{ rewrite (proj2 (encoder_forward_too_long _ _ _ _ _ _ _ _ X B
                        input_size T Tmask Henc HX HT)) in HY.
      discriminate. }
  split; [reflexivity|]. split; [exact HT|].
  destruct (encoder_init_inv _ _ _ _ _ _ _ _ Henc)
    as (table & layer & Htable & Hlayer & ->).
  apply positional_init_inv in Htable. destruct Htable as (_ & _ & Hs & _).
  revert HY. unfold TransformerEncoder.forward.
  cbn [TransformerEncoder.input_embedding TransformerEncoder.pos_encoder
       TransformerEncoder.d_model TransformerEncoder.transformer_encoder].
  destruct (conv1d_forward_ok
              (Conv1d.Make input_size d_model
                 (TransformerEncoder.embedding_weight init)
                 (TransformerEncoder.embedding_bias init))
              X B input_size T HX eq_refl) as (X1 & -> & HX1).
  cbn [bind Conv1d.out_channels] in *.
  destruct (positional_forward_ok table
              (Torch.scale (sqrt (INR d_model)) X1) B d_model _ T Hs HX1 HT)
    as (X2 & -> & HX2 & _).
  cbn [bind].
  destruct (permute_rank3 [2; 0; 1] X2 B d_model T HX2 eq_refl)
    as (src & -> & Hsrc).
  cbn [bind map nth] in *.
  destruct (causal_mask_entries Tmask) as (mask & -> & Hmask & _).
  cbn [bind]. unfold NNTransformerEncoder.forward.
  cbn [NNTransformerEncoder.num_layers NNTransformerEncoder.encoder_layer].
  destruct (num_layers =? 0).
  - cbn [bind].
    destruct (permute_rank3 [1; 2; 0] src T B d_model Hsrc eq_refl)
      as (Y' & -> & HY').
    intros H. injection H as <-. exact HY'.
  - rewrite Hsrc, Hmask.
    destruct (d_model =? _); cbn [bind]; [|discriminate].
    destruct ((Tmask =? T) && (Tmask =? T)); cbn [bind]; [|discriminate].
    match goal with
    | |- context [Torch.permute [1; 2; 0] ?x] =>
        destruct (permute_rank3 [1; 2; 0] x T B d_model eq_refl eq_refl)
          as (Y' & -> & HY')
    end.
    intros H. injection H as <-. exact HY'.
Qed.

(** X13. The forward call of a model with at least one static feature and a
    diagnosis encoding of positive width returns only for a batch whose
    shapes fit the model: X is B x (2F+2) x T, diagnoses B x D and flat
    B x S for one and the same B >= 1 and a length 6 <= T <= 14*24; the
    predictions then have shape B x (T-5).  On every other input it
    raises.  (The two widths are required positive because [torch.cat]
    passes over an empty one-dimensional tensor, which [cat] above
    refuses.) *)
Theorem forward_returns_only_on_matching_batch (init : Transformer.params)
    (config : Config.t) (F D S : nat) (m : Transformer.t)
    (md : Transformer.mode) (X diagnoses flat P : tensor R) :
  Transformer.__init__ init config F D S = Ok m ->
  1 <= S -> 1 <= Config.diagnosis_size config ->
  Transformer.forward m md X diagnoses flat = Ok P ->
  exists B T,
    shape X = [B; 2 * F + 2; T] /\ 1 <= B /\ 6 <= T /\ T <= 14 * 24 /\
    shape diagnoses = [B; D] /\ shape flat = [B; S] /\
    shape P = [B; T - 5].
Proof.
  intros Hm _ _ HP. rewrite forward_uses_combined_features in HP.
  destruct (shape X) as [|B [|C [|T [|]]]] eqn:HX; try discriminate.
  invert_init Hm enc Henc.
  cbn [Transformer.transformer Transformer.trans_dropout
       Transformer.diagnosis_encoder Transformer.bn_diagnosis_encoder
       Transformer.bn_diagnosis_fn Transformer.main_dropout
       Transformer.point Transformer.bn_point_last Transformer.bn_point_fn
       Transformer.point_final Transformer.hardtanh Transformer.no_exp]
    in HP.
  destruct (TransformerEncoder.forward enc X T) as [trans_output|] eqn:Htr;
    cbn [bind] in HP; [|discriminate].
  destruct (encoder_forward_inv _ _ _ _ _ _ _ _ X trans_output B C T T
              Henc HX Htr) as (-> & HT & Htrans).
  destruct (Linear.forward _ diagnoses) as [encoded|] eqn:Hlin;
    cbn [bind] in HP; [|discriminate].
  destruct (Norm.forward _ _ encoded) as [normed|] eqn:Hnorm;
    cbn [bind] in HP; [|discriminate].
  match type of HP with
  | context [combined_features B T flat ?de ?xf] =>
      destruct (combined_features B T flat de xf) as [combined|] eqn:Hcomb;
      cbn [bind] in HP; [|discriminate];
      apply (combined_features_inv flat de xf combined B
               (Config.d_model config) T) in Hcomb;
      [|cbn [Torch.relu Torch.map_t shape]; rewrite dropout_shape;
        exact Htrans]
  end.
  destruct Hcomb as (HB & HT6 & S' & G' & Hflat & Hde & Hcs).
  cbn [Torch.relu Torch.map_t shape] in Hde. rewrite dropout_shape in Hde.
  apply norm_forward_inv in Hnorm. rewrite Hde in Hnorm.
  apply linear_forward_inv in Hlin. destruct Hlin as (r & Hdiag & Henc1).
  cbn [Linear.in_features Linear.out_features] in *.
  rewrite <- Hnorm in Henc1.
  assert (r = [B] /\ G' = Config.diagnosis_size config) as [-> ->].
  { destruct r as [|x [|y r]]; try discriminate; cbn [app] in Henc1.
    - injection Henc1 as -> ->. split; reflexivity.
    - destruct r; discriminate. }
  cbn [app] in Hdiag.
  destruct (Linear.forward _ combined) as [projected|] eqn:Hpoint;
    cbn [bind] in HP; [|discriminate].
  apply linear_forward_inv in Hpoint. destruct Hpoint as (r & Hcs' & Hproj).
  cbn [Linear.in_features Linear.out_features] in *.
  rewrite Hcs in Hcs'.
  assert (r = [B * (T - 5)] /\
          S' + Config.diagnosis_size config + Config.d_model config =
          Config.d_model config + Config.diagnosis_size config + S)
    as [-> Hcols].
  { destruct r as [|x [|y r]]; try discriminate; cbn [app] in Hcs'.
    - injection Hcs' as -> ->. split; reflexivity.
    - destruct r; discriminate. }
  assert (S' = S) as -> by lia. cbn [app] in Hproj.
  destruct (Norm.forward _ _ projected) as [normed2|] eqn:Hnorm2;
    cbn [bind] in HP; [|discriminate].
  apply norm_forward_inv in Hnorm2. rewrite Hproj in Hnorm2.
  match type of HP with
  | context [Linear.forward ?l ?x] =>
      destruct (linear_forward_2d l x (B * (T - 5))
                  (Config.last_linear_size config))
        as (scores & Hsc & Hscores);
      [cbn [Torch.relu Torch.map_t shape]; rewrite dropout_shape;
       exact Hnorm2 | reflexivity |];
      rewrite Hsc in HP
  end.
  cbn [bind Linear.out_features] in *.
  destruct (view_batch scores B T Hscores) as (raw & Hraw & Hrs); [lia|].
  rewrite Hraw in HP. cbn [bind] in HP. injection HP as <-.
  exists B, T. repeat split; try assumption; try lia.
  unfold Hardtanh.forward. cbn [Torch.map_t shape].
  destruct (Config.no_exp config); exact Hrs.
Qed.

Lemma forward_returns_only_on_matching_batch_witness :
  exists m P,
    Transformer.__init__ zero_params (example_config "none" true) 3 5 4
      = Ok m /\
    Transformer.forward m eval_mode (example_X 2 7) (example_diagnoses 2)
      (example_flat 2) = Ok P /\
    shape P = [2; 2].
Proof.
  assert (Hok : is_ok (Transformer.__init__ zero_params
                         (example_config "none" true) 3 5 4) = true)
    by reflexivity.
  destruct (Transformer.__init__ zero_params (example_config "none" true)
              3 5 4) as [m|] eqn:Hm; [|discriminate Hok].
  destruct (raw_scores_ok zero_params (example_config "none" true) 3 5 4 m
              eval_mode (example_X 2 7) (example_diagnoses 2)
              (example_flat 2) 2 7 Hm eq_refl eq_refl eq_refl)
    as (raw & Hraw & _);
    [repeat constructor|repeat constructor|apply Nat.leb_le; reflexivity
    |reflexivity|reflexivity|].
  pose proof (forward_as_transform m eval_mode (example_X 2 7)
                (example_diagnoses 2) (example_flat 2)) as HP.
  rewrite Hraw in HP. cbn [bind] in HP.
  exists m. eexists. split; [reflexivity|]. split; [exact HP|].
  destruct (forward_returns_only_on_matching_batch zero_params
              (example_config "none" true) 3 5 4 m eval_mode
              (example_X 2 7) (example_diagnoses 2) (example_flat 2) _
              Hm ltac:(repeat constructor) ltac:(repeat constructor) HP)
    as (B & T & HX & _ & _ & _ & _ & _ & HPs).
  injection HX as <- <-. exact HPs.
Defined.


(** ** The prediction, entry by entry *)





